(** * Verification of benchmarks.py: job generation and GPU-aware dispatch

    A shallow embedding of [src/benchmarks.py].  Python dictionaries whose
    order matters are association lists in insertion order, the dictionary of
    GPU occupancy is a [gmap], exceptions are values of [exn], and the external
    world (GPU telemetry, container runtime, shell) is an explicit state with a
    trace of the actions performed on it.

    What the program obtains from outside the repository ([int] on a device
    index, the answers of the GPU queries, the exit status of a launch,
    [str.format], [json.dumps], the output of [dmidecode], the clock) is
    gathered in the records [Env] and [GenEnv]: the theorems hold whatever
    these compute. *)

From Stdlib Require Import ZArith String Ascii Sorted.
From stdpp Require Import base decidable option list gmap strings.

Set Warnings "-register-all".

Local Open Scope string_scope.
Local Open Scope list_scope.
Local Open Scope Z_scope.

(** ** Exceptions *)

Inductive pykey :=
| IntKey (z : Z)
| StrKey (s : string).

Inductive exn :=
| UnboundLocalError (var : string)
| KeyError (key : pykey)
| ValueError (text : string)
| TypeError (what : string)
| AttributeError (what : string).

(** ** Exceptions and state *)

(** Computations that may raise: [inl e] is the exception [e]. *)
#[global] Instance exn_ret : MRet (sum exn) := λ A a, inr a.
#[global] Instance exn_bind : MBind (sum exn) := λ A B k m,
  match m with
  | inr a => k a
  | inl e => inl e
  end.

(** State and exception monad over a state [S]: an exception keeps the
    effects performed before it was raised. *)
Definition M (S A : Type) : Type := S → S * (exn + A).

#[global] Instance M_ret {S} : MRet (M S) := λ A a st, (st, inr a).
#[global] Instance M_bind {S} : MBind (M S) := λ A B k m st,
  match m st with
  | (st', inr a) => k a st'
  | (st', inl e) => (st', inl e)
  end.

Definition raise {S A} (e : exn) : M S A := λ st, (st, inl e).
Definition gets {S A} (f : S → A) : M S A := λ st, (st, inr (f st)).
Definition modify {S} (f : S → S) : M S unit := λ st, (f st, inr tt).
Definition lift {S A} (r : exn + A) : M S A := λ st, (st, r).

(** ** Strings *)

Module Str.

(** [s.startswith(p)] *)
Fixpoint startswith (p s : string) : bool :=
  match p, s with
  | EmptyString, _ => true
  | String a p', String b s' => if Ascii.eqb a b then startswith p' s' else false
  | String _ _, EmptyString => false
  end.

(** [s.replace(old, new)] for a non-empty [old]: occurrences are replaced
    left to right and do not overlap.  [skip] counts the characters of an
    occurrence that is being stepped over. *)
Fixpoint replace_from (old new : string) (skip : nat) (s : string) : string :=
  match s with
  | EmptyString => EmptyString
  | String c s' =>
      match skip with
      | S k => replace_from old new k s'
      | O =>
          if startswith old s
          then new +:+ replace_from old new (Nat.pred (String.length old)) s'
          else String c (replace_from old new O s')
      end
  end.

Definition replace (old new s : string) : string := replace_from old new O s.

(** [s.split(sep)] for a one-character separator; [cur] is the piece being
    read.  The result is never empty: [''.split(',') == ['']]. *)
Fixpoint split_from (sep : ascii) (cur : string) (s : string) : list string :=
  match s with
  | EmptyString => [cur]
  | String c s' =>
      if Ascii.eqb c sep
      then cur :: split_from sep EmptyString s'
      else split_from sep (cur +:+ String c EmptyString) s'
  end.

Definition split (sep : ascii) (s : string) : list string :=
  split_from sep EmptyString s.

(** [sub in s] *)
Fixpoint contains (sub s : string) : bool :=
  startswith sub s ||
  match s with
  | EmptyString => false
  | String _ s' => contains sub s'
  end.

(** Whitespace as [str.strip()] sees it, within ASCII. *)
Definition is_space (c : ascii) : bool :=
  let n := nat_of_ascii c in
  (((9 <=? n) && (n <=? 13)) || ((28 <=? n) && (n <=? 32)))%nat.

Fixpoint lstrip (s : string) : string :=
  match s with
  | String c s' => if is_space c then lstrip s' else s
  | EmptyString => EmptyString
  end.

Fixpoint rstrip (s : string) : string :=
  match s with
  | EmptyString => EmptyString
  | String c s' =>
      match rstrip s' with
      | EmptyString => if is_space c then EmptyString else String c EmptyString
      | t => String c t
      end
  end.

(** [s.strip()] *)
Definition strip (s : string) : string := lstrip (rstrip s).

(** [s.lower()], within ASCII. *)
Definition lower_char (c : ascii) : ascii :=
  let n := nat_of_ascii c in
  if ((65 <=? n) && (n <=? 90))%nat then ascii_of_nat (n + 32) else c.

Fixpoint lower (s : string) : string :=
  match s with
  | EmptyString => EmptyString
  | String c s' => String (lower_char c) (lower s')
  end.

(** [sep.join(l)] *)
Fixpoint join (sep : string) (l : list string) : string :=
  match l with
  | [] => EmptyString
  | [x] => x
  | x :: rest => x +:+ sep +:+ join sep rest
  end.

(** Decimal rendering of an integer, as [str(n)] gives it. *)
Definition digit (n : nat) : ascii := ascii_of_nat (48 + n).

Fixpoint of_nat_fuel (fuel n : nat) (acc : string) : string :=
  match fuel with
  | O => acc
  | S f =>
      let acc' := String (digit (n mod 10)) acc in
      if (n / 10 =? 0)%nat then acc' else of_nat_fuel f (n / 10)%nat acc'
  end.

Definition of_nat (n : nat) : string := of_nat_fuel (S n) n EmptyString.

Definition of_Z (z : Z) : string :=
  if z <? 0 then String "-" (of_nat (Z.to_nat (- z))) else of_nat (Z.to_nat z).

(** The fragment of [int(s)] on plain ASCII decimal digit strings, which is
    what [generate_docker] writes in the devices column.  It instantiates
    the [py_int] variable in the examples. *)
Definition digit_val (c : ascii) : option Z :=
  let n := nat_of_ascii c in
  if ((48 <=? n) && (n <=? 57))%nat then Some (Z.of_nat (n - 48)) else None.

Fixpoint decimal_from (acc : Z) (s : string) : option Z :=
  match s with
  | EmptyString => Some acc
  | String c s' =>
      match digit_val c with
      | Some d => decimal_from (10 * acc + d) s'
      | None => None
      end
  end.

Definition decimal (s : string) : option Z :=
  match s with
  | EmptyString => None
  | _ => decimal_from 0 s
  end.

End Str.

(** ** The tracking table *)

(** One row of the tracking file, with the columns of its header
    [benchmark_name, system_name, devices, docker_name, status, cmd].
    [devices] is the text [str(row['devices'])] yields. *)
Record JobRecord := mkJobRecord {
  benchmark_name : string;
  system_name : string;
  devices : string;
  docker_name : string;
  status : string;
  cmd : string
}.

Definition with_status (s : string) (r : JobRecord) : JobRecord :=
  {| benchmark_name := benchmark_name r; system_name := system_name r;
     devices := devices r; docker_name := docker_name r;
     status := s; cmd := cmd r |}.

(** [df.loc[df['docker_name']==name, ['status']] = s] *)
Definition loc_set_status (name s : string) (df : list JobRecord) : list JobRecord :=
  (λ r, if bool_decide (docker_name r = name) then with_status s r else r) <$> df.

(** ** The external world of a reconciliation pass *)

(** One entry of [GPUStatCollection.new_query().jsonify()['gpus']]; the pass
    reads its index and the length of its process list only. *)
Record gpu := mkGpu {
  index : Z;
  processes : list Z
}.

Inductive event :=
| EvQuery (n : nat)                    (* the n-th GPU query *)
| EvSystem (idx : nat) (c : string) (rc : Z)
                                       (* os.system(c) issued for row idx, exit status rc *)
| EvSleep (secs : nat).                (* time.sleep(secs) *)

(** Local variables of [run_cycle] together with the part of the world it
    acts on. *)
Record pass_state := mkPass {
  df : list JobRecord;
  running_containers_list : list string;
  container : option string;
  gpus_status_dict : gmap Z nat;
  queries : nat;
  trace : list event
}.

Definition set_df (f : list JobRecord → list JobRecord) (st : pass_state) :=
  mkPass (f (df st)) (running_containers_list st) (container st)
         (gpus_status_dict st) (queries st) (trace st).

Definition set_dict (d : gmap Z nat) (st : pass_state) :=
  mkPass (df st) (running_containers_list st) (container st)
         d (queries st) (trace st).

Definition emit (e : event) (st : pass_state) :=
  mkPass (df st) (running_containers_list st) (container st)
         (gpus_status_dict st) (queries st) (trace st ++ [e]).

Definition tick (st : pass_state) :=
  mkPass (df st) (running_containers_list st) (container st)
         (gpus_status_dict st) (S (queries st)) (trace st).

(** What the pass obtains from outside the repository. *)
Record Env := mkEnv {
  (** Python's [int] on the text of one device index. *)
  py_int : string → option Z;
  (** The answer of the n-th call of [GPUStatCollection.new_query()]. *)
  gpustat : nat → list gpu;
  (** The exit status of [os.system(c)] when it is issued after [n] earlier
      actions. *)
  shell : nat → string → Z
}.

Section Dispatcher.

Variable E : Env.
Variable interactive_mode : bool.

(** [for gpu in gpus_status['gpus']: d[gpu['index']] = len(gpu['processes'])] *)
Definition status_dict (gpus : list gpu) : gmap Z nat :=
  fold_left (λ d g, <[index g := length (processes g)]> d) gpus ∅.

Definition new_query : M pass_state (list gpu) :=
  n ← gets queries;
  modify (λ st, tick (emit (EvQuery n) st));;
  mret (gpustat E n).

Definition refresh_status_dict : M pass_state unit :=
  gpus ← new_query;
  modify (set_dict (status_dict gpus)).

(** [for gpu in gpus: nb_processes += gpus_status_dict[int(gpu)]] *)
Fixpoint sum_processes (d : gmap Z nat) (gpus : list string) (nb : nat) : exn + nat :=
  match gpus with
  | [] => inr nb
  | g :: rest =>
      match py_int E g with
      | None => inl (ValueError g)
      | Some k =>
          match d !! k with
          | None => inl (KeyError (IntKey k))
          | Some n => sum_processes d rest (nb + n)%nat
          end
      end
  end.

Definition nb_processes (d : gmap Z nat) (row : JobRecord) : exn + nat :=
  sum_processes d (Str.split "," (devices row)) O.

Definition launch_cmd (row : JobRecord) : string :=
  if interactive_mode then Str.replace " -d " " -it " (cmd row) else cmd row.

(** [os.system(c)]: the command runs, its exit status is returned. *)
Definition os_system (idx : nat) (c : string) : M pass_state Z :=
  n ← gets (λ st, length (trace st));
  modify (emit (EvSystem idx c (shell E n c)));;
  mret (shell E n c).

(** Body of [for index, row in df.iterrows()]. *)
Definition row_step (idx : nat) (row : JobRecord) : M pass_state unit :=
  running ← gets running_containers_list;
  (if bool_decide (status row = "RUNNING")
      && negb (bool_decide (docker_name row ∈ running))
   then
     c ← gets container;
     match c with
     | None => raise (UnboundLocalError "container")
     | Some name => modify (set_df (loc_set_status name "STOPPED"))
     end
   else mret tt);;
  if bool_decide (status row = "PENDING") then
    refresh_status_dict;;
    d ← gets gpus_status_dict;
    nb ← lift (nb_processes d row);
    if (nb =? 0)%nat then
      os_system idx (launch_cmd row);;
      modify (emit (EvSleep 15))
    else mret tt
  else mret tt.

(** The rows [df.iterrows()] yields are those of the table as it is when
    the loop starts; [i] is the index of the first one. *)
Fixpoint iterrows (i : nat) (rows : list JobRecord) : M pass_state unit :=
  match rows with
  | [] => mret tt
  | row :: rest => row_step i row ;; iterrows (S i) rest
  end.

(** The same loop when every row is read from the table as it is when its
    turn comes, for [n] rows from index [i] on.  Whether [iterrows] yields
    copies made when the loop starts or views of the table depends on the
    column types; [iterrows_live_agrees] shows that the pass is the same. *)
Fixpoint iterrows_live (n i : nat) : M pass_state unit :=
  match n with
  | O => mret tt
  | S n' =>
      rows ← gets df;
      match rows !! i with
      | None => mret tt
      | Some row => row_step i row;; iterrows_live n' (S i)
      end
  end.

(** [for container in client.containers.list(): ...] *)
Fixpoint containers_loop (names : list string) : M pass_state unit :=
  match names with
  | [] => mret tt
  | name :: rest =>
      modify (λ st, mkPass (loc_set_status name "RUNNING" (df st))
                           (running_containers_list st ++ [name])
                           (Some name)
                           (gpus_status_dict st) (queries st) (trace st));;
      containers_loop rest
  end.

(** [run_cycle] up to, and not including, [df.to_csv]. *)
Definition run_cycle_body (containers : list string) : M pass_state unit :=
  refresh_status_dict;;
  containers_loop containers;;
  rows ← gets df;
  iterrows O rows.

(** The world between passes: the contents of the tracking file, the number
    of GPU queries answered so far and the actions performed so far. *)
Record world := mkWorld {
  tracking_file : list JobRecord;
  w_queries : nat;
  w_trace : list event
}.

Definition enter (w : world) : pass_state :=
  mkPass (tracking_file w) [] None ∅ (w_queries w) (w_trace w).

(** One call of [run_cycle]: the table is written back only when the body
    ends without an exception.  [show_cmd] only prints and is left out, as
    are the other prints. *)
Definition run_cycle (containers : list string) (w : world) : world * option exn :=
  match run_cycle_body containers (enter w) with
  | (st, inr _) => (mkWorld (df st) (queries st) (trace st), None)
  | (st, inl e) => (mkWorld (tracking_file w) (queries st) (trace st), Some e)
  end.

End Dispatcher.



(** ** Configuration values *)

(** A value of the parsed YAML configuration.  A float is carried by the text
    Python prints for it, which is all the program does with one besides
    testing it for zero. *)
Inductive yaml :=
| YNull
| YBool (b : bool)
| YInt (z : Z)
| YFloat (repr : string)
| YStr (s : string)
| YList (l : list yaml)
| YMap (m : list (string * yaml)).

(** Python dictionaries with string keys, in insertion order. *)
Module Dict.

Fixpoint get {V} (k : string) (d : list (string * V)) : option V :=
  match d with
  | [] => None
  | (k', v) :: rest => if String.eqb k' k then Some v else get k rest
  end.

Definition mem {V} (k : string) (d : list (string * V)) : bool :=
  match get k d with Some _ => true | None => false end.

(** [d[k] = v]: a present key keeps its place, a new one goes last. *)
Fixpoint set {V} (k : string) (v : V) (d : list (string * V)) : list (string * V) :=
  match d with
  | [] => [(k, v)]
  | (k', v') :: rest =>
      if String.eqb k' k then (k', v) :: rest else (k', v') :: set k v rest
  end.

(** [dict(pairs)] *)
Definition of_pairs {V} (pairs : list (string * V)) : list (string * V) :=
  fold_left (λ d kv, set kv.1 kv.2 d) pairs [].

(** [{**d1, **d2}] *)
Definition update {V} (d1 d2 : list (string * V)) : list (string * V) :=
  fold_left (λ d kv, set kv.1 kv.2 d) d2 d1.

Definition keys {V} (d : list (string * V)) : list string := d.*1.
Definition values {V} (d : list (string * V)) : list V := d.*2.

End Dict.

(** [bool(v)] *)
Definition truthy (v : yaml) : bool :=
  match v with
  | YNull => false
  | YBool b => b
  | YInt z => negb (z =? 0)
  | YFloat r => negb (String.eqb r "0.0" || String.eqb r "-0.0")
  | YStr s => negb (String.eqb s EmptyString)
  | YList l => match l with [] => false | _ => true end
  | YMap m => match m with [] => false | _ => true end
  end.

(** [v[k]] for a string key [k] *)
Definition getitem (v : yaml) (k : string) : exn + yaml :=
  match v with
  | YMap m =>
      match Dict.get k m with
      | Some x => inr x
      | None => inl (KeyError (StrKey k))
      end
  | _ => inl (TypeError "subscript")
  end.

(** [v.items()] *)
Definition items (v : yaml) : exn + list (string * yaml) :=
  match v with
  | YMap m => inr m
  | _ => inl (AttributeError "items")
  end.

(** [**v] in a call or a dictionary display *)
Definition unpack (v : yaml) : exn + list (string * yaml) :=
  match v with
  | YMap m => inr m
  | _ => inl (TypeError "not a mapping")
  end.

(** [len(v)] *)
Definition py_len (v : yaml) : exn + nat :=
  match v with
  | YList l => inr (length l)
  | YStr s => inr (String.length s)
  | YMap m => inr (length m)
  | _ => inl (TypeError "len")
  end.

Fixpoint chars (s : string) : list yaml :=
  match s with
  | EmptyString => []
  | String c s' => YStr (String c EmptyString) :: chars s'
  end.

(** The elements a [for] loop, or [itertools.product], draws from [v]. *)
Definition py_iter (v : yaml) : exn + list yaml :=
  match v with
  | YList l => inr l
  | YStr s => inr (chars s)
  | YMap m => inr (YStr <$> Dict.keys m)
  | _ => inl (TypeError "not iterable")
  end.

Definition is_str (k : string) (v : yaml) : bool :=
  match v with YStr s => String.eqb s k | _ => false end.

(** [k in v] for a string [k] *)
Definition contains (k : string) (v : yaml) : exn + bool :=
  match v with
  | YMap m => inr (Dict.mem k m)
  | YList l => inr (existsb (is_str k) l)
  | YStr s => inr (Str.contains k s)
  | _ => inl (TypeError "not iterable")
  end.

(** ** The parameter expander *)

(** [itertools.product] applied to the pools as its documentation defines it:
    [result = [[]]], then for each pool
    [result = [x+[y] for x in result for y in pool]]. *)
Definition product_step {A} (result : list (list A)) (pool : list A) : list (list A) :=
  x ← result; y ← pool; [x ++ [y]].

Definition product {A} (pools : list (list A)) : list (list A) :=
  fold_left product_step pools [[]].

Fixpoint iter_all (vals : list yaml) : exn + list (list yaml) :=
  match vals with
  | [] => inr []
  | v :: rest =>
      pool ← py_iter v;
      pools ← iter_all rest;
      inr (pool :: pools)
  end.

(** The list of what [product_dict] yields for the keyword arguments
    [kwargs]. *)
Definition product_dict (kwargs : list (string * yaml))
    : exn + list (list (string * yaml)) :=
  let keys := Dict.keys kwargs in
  let vals := Dict.values kwargs in
  pools ← iter_all vals;
  inr ((λ instance, Dict.of_pairs (zip keys instance)) <$> product pools).

(** ** Deep merge *)

(** [mergedeep.merge(dst, src)] with its default strategy, on dictionaries:
    the value [dst] holds when the call returns.  A key of [src] whose value
    and whose counterpart in [dst] are both dictionaries is merged
    recursively; any other key of [src] replaces or extends [dst]. *)
Fixpoint deepmerge (src dst : yaml) {struct src} : yaml :=
  match src, dst with
  | YMap s, YMap d =>
      YMap ((fix entries (s : list (string * yaml)) (d : list (string * yaml)) :=
               match s with
               | [] => d
               | (k, v) :: s' =>
                   entries s'
                     (Dict.set k (match Dict.get k d with
                                  | Some old => deepmerge v old
                                  | None => v
                                  end) d)
               end) s d)
  | _, _ => src
  end.

Definition merge (dst src : yaml) : exn + yaml :=
  match dst, src with
  | YMap _, YMap _ => inr (deepmerge src dst)
  | _, _ => inl (TypeError "merge")
  end.

(** ** Job generation *)

(** What generation obtains from outside the repository. *)
Record GenEnv := mkGenEnv {
  (** [template.format] applied to keyword arguments *)
  py_format : string → list (string * yaml) → exn + string;
  (** [str(v)] for a list or a dictionary [v] *)
  py_repr : yaml → string;
  json_dumps : list (string * yaml) → string;
  (** output of [dmidecode --type 17 | grep 'item' | head -n 1] *)
  dmidecode : string → string;
  (** [datetime.now().strftime("%Y.%m.%d-%H:%M")] *)
  now : string
}.

(** [str(v)], which is also how an f-string renders [v]. *)
Definition py_str (G : GenEnv) (v : yaml) : string :=
  match v with
  | YNull => "None"
  | YBool true => "True"
  | YBool false => "False"
  | YInt z => Str.of_Z z
  | YFloat r => r
  | YStr s => s
  | YList _ | YMap _ => py_repr G v
  end.

(** [template.format] with keyword arguments [kw]; only a string has the
    method. *)
Definition format (G : GenEnv) (template : yaml) (kw : list (string * yaml))
    : exn + string :=
  match template with
  | YStr s => py_format G s kw
  | _ => inl (AttributeError "format")
  end.

(** [d[k]] for a dictionary built by the program. *)
Definition lookup_key (d : list (string * yaml)) (k : string) : exn + yaml :=
  match Dict.get k d with
  | Some v => inr v
  | None => inl (KeyError (StrKey k))
  end.

(** [for data_source, mount_point in ...items(): mounts += ...] *)
Fixpoint mounts_loop (G : GenEnv) (data_config : yaml)
    (ms : list (string * yaml)) (mounts : string) : exn + string :=
  match ms with
  | [] => inr mounts
  | (data_source, mount_point) :: rest =>
      host ← getitem data_config data_source;
      mounts_loop G data_config rest
        (mounts +:+ "-v " +:+ py_str G host +:+ ":" +:+ py_str G mount_point +:+ " ")
  end.

(** [for preparation in benchmark_config['preparation']: ...] *)
Fixpoint preparation_loop (G : GenEnv) (preps : list yaml)
    (kw : list (string * yaml)) (benchmark_cmd : string) : exn + string :=
  match preps with
  | [] => inr benchmark_cmd
  | preparation :: rest =>
      rendered ← format G preparation kw;
      preparation_loop G rest kw (benchmark_cmd +:+ rendered +:+ " && ")
  end.

Definition memory_items : list string :=
  ["Size"; "Speed"; "Manufacturer"; "Type"; "Configured Memory Speed"; "Form Factor"].

(** One element of [memory_info]. *)
Definition memory_entry (G : GenEnv) (item : string) : string :=
  let value := Str.replace (item +:+ ": ") EmptyString (Str.strip (dmidecode G item)) in
  let key := "mem_info_" +:+ Str.replace " " "_" (Str.lower item) in
  let vk :=
    fold_left
      (λ (vk : string * string) (unit : string),
         if Str.contains unit vk.1
         then (Str.strip (Str.replace unit EmptyString vk.1),
               vk.2 +:+ "_" +:+ Str.replace "/" "_per_" unit)
         else vk)
      ["MB"; "MT/s"] (value, key) in
  vk.2 +:+ "=" +:+ vk.1.

Fixpoint strs (l : list yaml) : exn + list string :=
  match l with
  | [] => inr []
  | YStr s :: rest => ss ← strs rest; inr (s :: ss)
  | _ :: _ => inl (TypeError "join")
  end.

(** [','.join(v)] *)
Definition join_commas (v : yaml) : exn + string :=
  l ← py_iter v;
  ss ← strs l;
  inr (Str.join "," ss).

Definition extra_replacements (NVIDIA_VISIBLE_DEVICES : string) (NB_CUDA_DEVICES : nat)
    (system_name benchmark_name capability : string) : list (string * yaml) :=
  [("NVIDIA_VISIBLE_DEVICES", YStr NVIDIA_VISIBLE_DEVICES);
   ("NB_CUDA_DEVICES", YInt (Z.of_nat NB_CUDA_DEVICES));
   ("SYSTEM_NAME", YStr system_name);
   ("BENCHMARK_NAME", YStr benchmark_name);
   ("CAPABILITY", YStr capability)].

(** The name given to the container, line 121. *)
Definition run_name_of (G : GenEnv) (benchmark_name system_name capability : string)
    (batch_size epochs learning_rate : yaml) : string :=
  benchmark_name +:+ "-" +:+ system_name +:+ "-" +:+ capability
  +:+ "-B" +:+ py_str G batch_size +:+ "xE" +:+ py_str G epochs
  +:+ "xLR" +:+ py_str G learning_rate.

(** The launch command, line 144. *)
Definition docker_run (run_mode run_name wandb mounts NVIDIA_VISIBLE_DEVICES
    workdir capability benchmark_name benchmark_cmd : string) : string :=
  "docker run -" +:+ run_mode +:+ " --rm --ipc=host --name=" +:+ run_name
  +:+ " " +:+ wandb +:+ " " +:+ mounts
  +:+ " --gpus 'device=" +:+ NVIDIA_VISIBLE_DEVICES +:+ "' -w " +:+ workdir
  +:+ " -e PRECISION=" +:+ capability +:+ " " +:+ benchmark_name
  +:+ " bash -c '" +:+ benchmark_cmd +:+ "'".

(** The row appended to [experiments], lines 147 to 154. *)
Definition experiment_row (benchmark_name system_name NVIDIA_VISIBLE_DEVICES
    capability cmd : string) : JobRecord :=
  mkJobRecord benchmark_name system_name NVIDIA_VISIBLE_DEVICES
    (benchmark_name +:+ "-" +:+ system_name +:+ "-" +:+ capability)
    "PENDING" cmd.

Section GenerateDocker.

Variable G : GenEnv.
Variable interactive_mode : bool.
Variables system_name benchmark_name : string.
Variables benchmark_config wandb_config : yaml.
Variables (NVIDIA_VISIBLE_DEVICES : string) (NB_CUDA_DEVICES : nat) (mounts : string).

(** The text of [wandb] in the launch command. *)
Definition wandb_options (run_name WANDB_NOTES : string) : exn + string :=
  let tags := Str.join "," (memory_entry G <$> memory_items) in
  active ← getitem wandb_config "active";
  if truthy active then
    tags_v ← getitem wandb_config "additional-tags";
    additional_tags ← join_commas tags_v;
    let tags := tags +:+ "," +:+ additional_tags in
    key ← getitem wandb_config "key";
    user ← getitem wandb_config "user";
    project ← getitem wandb_config "project";
    inr ("-e WANDB_API_KEY=" +:+ py_str G key
         +:+ " -e WANDB_NAME='" +:+ run_name +:+ "-" +:+ now G
         +:+ "' -e WANDB_TAGS='" +:+ tags
         +:+ "' -e WANDB_NOTES='" +:+ WANDB_NOTES
         +:+ "' -e WANDB_ENTITY=" +:+ py_str G user
         +:+ " -e WANDB_PROJECT=" +:+ py_str G project)
  else inr EmptyString.

(** [run_mode], lines 116 to 119. *)
Definition run_mode_of : exn + string :=
  if interactive_mode then
    docker ← getitem benchmark_config "docker";
    path ← getitem docker "path";
    docker ← getitem benchmark_config "docker";
    executable ← getitem docker "executable";
    exe_path ← getitem executable "path";
    inr ("it -v $PWD/" +:+ py_str G path +:+ ":" +:+ py_str G exe_path)
  else inr "d".

(** Body of the loop over the compute capabilities of the system, for an
    active capability: the row it appends, if any. *)
Definition experiment (capability : string) : exn + option JobRecord :=
  params ← getitem benchmark_config "params";
  _ ← getitem params "batch-size";
  params ← getitem benchmark_config "params";
  _ ← getitem params "epochs";
  params ← getitem benchmark_config "params";
  kw ← unpack params;
  let cmd_replacements :=
    Dict.update kw (extra_replacements NVIDIA_VISIBLE_DEVICES NB_CUDA_DEVICES
                      system_name benchmark_name capability) in
  has_preparation ← contains "preparation" benchmark_config;
  benchmark_cmd ←
    (if (has_preparation : bool) then
       preps ← getitem benchmark_config "preparation";
       l ← py_iter preps;
       preparation_loop G l cmd_replacements EmptyString
     else inr EmptyString);
  docker ← getitem benchmark_config "docker";
  executable ← getitem docker "executable";
  commands ← getitem executable "commands";
  known ← contains capability commands;
  if negb (known : bool) then inr None
  else
    template ← getitem commands capability;
    rendered ← format G template cmd_replacements;
    let benchmark_cmd := benchmark_cmd +:+ rendered in
    run_mode ← run_mode_of;
    batch_size ← lookup_key cmd_replacements "batch-size";
    epochs ← lookup_key cmd_replacements "epochs";
    learning_rate ← lookup_key cmd_replacements "learning-rate";
    let run_name :=
      run_name_of G benchmark_name system_name capability
        batch_size epochs learning_rate in
    let WANDB_NOTES := json_dumps G cmd_replacements in
    wandb ← wandb_options run_name WANDB_NOTES;
    docker ← getitem benchmark_config "docker";
    executable ← getitem docker "executable";
    workdir ← getitem executable "path";
    let cmd :=
      docker_run run_mode run_name wandb mounts NVIDIA_VISIBLE_DEVICES
        (py_str G workdir) capability benchmark_name benchmark_cmd in
    inr (Some (experiment_row benchmark_name system_name NVIDIA_VISIBLE_DEVICES
                 capability cmd)).

(** [for capability, is_active in ...items(): ...] *)
Fixpoint capabilities_loop (caps : list (string * yaml))
    (experiments : list JobRecord) : exn + list JobRecord :=
  match caps with
  | [] => inr experiments
  | (capability, is_active) :: rest =>
      if truthy is_active then
        row ← experiment capability;
        capabilities_loop rest
          (match row : option JobRecord with
           | Some r => experiments ++ [r]
           | None => experiments
           end)
      else capabilities_loop rest experiments
  end.

End GenerateDocker.

(** The rows [generate_docker] writes: the list [experiments] when the loop
    over the capabilities ends. *)
Definition experiments_of (G : GenEnv) (system_name : string) (system_config : yaml)
    (benchmark_name : string) (benchmark_config data_config wandb_config : yaml)
    (interactive_mode : bool) : exn + list JobRecord :=
  ids ← getitem system_config "devices-ids";
  NB_CUDA_DEVICES ← py_len ids;
  ids ← getitem system_config "devices-ids";
  l ← py_iter ids;
  let NVIDIA_VISIBLE_DEVICES := Str.join "," (py_str G <$> l) in
  docker ← getitem benchmark_config "docker";
  mounts_v ← getitem docker "mounts";
  ms ← items mounts_v;
  mounts ← mounts_loop G data_config ms EmptyString;
  caps_v ← getitem system_config "compute-capabilities";
  caps ← items caps_v;
  capabilities_loop G interactive_mode system_name benchmark_name
    benchmark_config wandb_config NVIDIA_VISIBLE_DEVICES NB_CUDA_DEVICES mounts
    caps [].

(** What generation acts on: the templates of the configuration, which it
    modifies in place, the tracking file, and the image builds it runs. *)
Record gen_state := mkGen {
  templates : yaml;
  tracking : list JobRecord;
  builds : list string
}.

Definition set_templates (t : yaml) (st : gen_state) : gen_state :=
  mkGen t (tracking st) (builds st).

Section Generation.

Variable G : GenEnv.
Variable interactive_mode : bool.

Definition generate_docker (system_name : string) (system_config : yaml)
    (benchmark_name : string) (benchmark_config data_config wandb_config : yaml)
    : M gen_state unit :=
  experiments ← lift (experiments_of G system_name system_config benchmark_name
                        benchmark_config data_config wandb_config interactive_mode);
  modify (λ st, mkGen (templates st) (tracking st ++ experiments) (builds st)).

Definition build_docker (docker_config : yaml) (tag : string) : M gen_state unit :=
  path ← lift (getitem docker_config "path");
  dockerfile ← lift (getitem docker_config "dockerfile");
  let cmd := "cd " +:+ py_str G path +:+ " && docker build -t " +:+ tag
             +:+ " -f " +:+ py_str G dockerfile +:+ " ." in
  modify (λ st, mkGen (templates st) (tracking st) (builds st ++ [cmd])).

(** [templates_ref[name]], and the same entry once [merged] has taken the
    place of what it held. *)
Definition template_named (templates_ref name : yaml) : exn + yaml :=
  match name with
  | YStr s => getitem templates_ref s
  | YList _ | YMap _ => inl (TypeError "unhashable")
  | _ =>
      match templates_ref with
      | YMap _ => inl (KeyError (StrKey (py_str G name)))
      | _ => inl (TypeError "subscript")
      end
  end.

Definition store_template (name merged templates_ref : yaml) : yaml :=
  match name, templates_ref with
  | YStr s, YMap m => YMap (Dict.set s merged m)
  | _, _ => templates_ref
  end.

(** [for benchmark_params in benchmarks_params: ...] *)
Fixpoint params_loop (config : yaml) (system_name : string) (system_config : yaml)
    (benchmark_name : string) (this_benchmark_config : yaml)
    (benchmarks_params : list (list (string * yaml))) : M gen_state unit :=
  match benchmarks_params with
  | [] => mret tt
  | benchmark_params :: rest =>
      current ← lift (unpack this_benchmark_config);
      let current_benchmark_config :=
        YMap (Dict.set "params" (YMap benchmark_params) current) in
      data_config ← lift (getitem config "data");
      wandb_config ← lift (getitem config "wandb");
      generate_docker system_name system_config benchmark_name
        current_benchmark_config data_config wandb_config;;
      params_loop config system_name system_config benchmark_name
        this_benchmark_config rest
  end.

(** Body of the loop over the benchmarks, lines 53 to 73.  The merge writes
    into the template the configuration holds: [this_benchmark_config] and
    the stored template are one object. *)
Definition benchmark_step (config : yaml) (system_name : string) (system_config : yaml)
    (benchmark_name : string) (benchmark_config : yaml) : M gen_state unit :=
  name ← lift (getitem benchmark_config "benchmark-template");
  templates_ref ← gets templates;
  benchmark_template ← lift (template_named templates_ref name);
  merged ← lift (merge benchmark_template benchmark_config);
  modify (λ st, set_templates (store_template name merged (templates st)) st);;
  let this_benchmark_config := merged in
  active ← lift (getitem this_benchmark_config "active");
  if truthy active then
    docker ← lift (getitem this_benchmark_config "docker");
    build_docker docker benchmark_name;;
    params ← lift (getitem this_benchmark_config "params");
    kw ← lift (unpack params);
    benchmarks_params ← lift (product_dict kw);
    params_loop config system_name system_config benchmark_name
      this_benchmark_config benchmarks_params
  else mret tt.

Fixpoint benchmarks_loop (config : yaml) (system_name : string) (system_config : yaml)
    (benchmarks : list (string * yaml)) : M gen_state unit :=
  match benchmarks with
  | [] => mret tt
  | (benchmark_name, benchmark_config) :: rest =>
      benchmark_step config system_name system_config benchmark_name benchmark_config;;
      benchmarks_loop config system_name system_config rest
  end.

Fixpoint systems_loop (config : yaml) (systems : list (string * yaml))
    : M gen_state unit :=
  match systems with
  | [] => mret tt
  | (system_name, system_config) :: rest =>
      active ← lift (getitem system_config "active");
      (if negb (truthy active) then mret tt
       else
         benchmarks_v ← lift (getitem config "benchmarks");
         benchmarks ← lift (items benchmarks_v);
         benchmarks_loop config system_name system_config benchmarks);;
      systems_loop config rest
  end.

(** [generate_all_benchmarks], run on the tracking file [file]: the state it
    leaves, and the exception that interrupted it, if any.  The templates of
    the state are those the configuration holds afterwards. *)
Definition generate_all_benchmarks (config : yaml) (file : list JobRecord)
    : gen_state * (exn + unit) :=
  match getitem config "benchmarks-template" with
  | inl e => (mkGen YNull file [], inl e)
  | inr templates_ref =>
      (systems_v ← lift (getitem config "systems");
       systems ← lift (items systems_v);
       systems_loop config systems) (mkGen templates_ref file [])
  end.

End Generation.

(** ** The run loop *)

(** [time.sleep(15)] between two passes. *)
Definition pause (w : world) : world :=
  mkWorld (tracking_file w) (w_queries w) (w_trace w ++ [EvSleep 15]).

(** The first [fuel] iterations of the [while True] of [runner], the first
    of them being the iteration number [cycle]; [docker_ps c] is what the
    container runtime lists during the iteration number [c].  The loop has
    no exit: only an exception of a pass ends it. *)
Fixpoint runner (E : Env) (interactive_mode : bool) (docker_ps : nat → list string)
    (fuel cycle : nat) (w : world) : world * option exn :=
  match fuel with
  | O => (w, None)
  | S fuel' =>
      match run_cycle E interactive_mode (docker_ps cycle) w with
      | (w', None) => runner E interactive_mode docker_ps fuel' (S cycle) (pause w')
      | (w', Some e) => (w', Some e)
      end
  end.


(** ** Environments for concrete scenarios *)

(** Two GPUs, of indices 0 and 1, with [n0] and [n1] compute processes. *)
Definition two_gpus (n0 n1 : nat) : list gpu :=
  [mkGpu 0 (repeat 4242 n0); mkGpu 1 (repeat 4242 n1)].

(** Every GPU query answers [gpus]; device indices are plain decimals; every
    launch exits with status 0. *)
Definition demo_env (gpus : list gpu) : Env :=
  mkEnv Str.decimal (λ _, gpus) (λ _ _, 0).

(** Device 0 is idle for the first two queries and busy afterwards. *)
Definition busy_after_first_launch : Env :=
  mkEnv Str.decimal (λ n, if (n <? 2)%nat then two_gpus 0 0 else two_gpus 1 0)
        (λ _ _, 0).

Definition job (devs name st : string) : JobRecord :=
  mkJobRecord "bert" "dgx" devs name st ("docker run -d --rm --name=" +:+ name).


(** *** A configuration for the scenarios of generation *)

(** An environment for templates without replacement fields, which
    [str.format] returns unchanged; the machine reports no memory module. *)
Definition plain_env : GenEnv :=
  mkGenEnv (λ s _, inr s) (λ _, "[]") (λ _, "{}") (λ _, EmptyString) "2024.01.01-00:00".

Definition docker_section : yaml :=
  YMap [("path", YStr "bert"); ("dockerfile", YStr "Dockerfile");
        ("mounts", YMap [("imagenet", YStr "/data")]);
        ("executable",
         YMap [("path", YStr "/workspace");
               ("commands", YMap [("fp16", YStr "python train.py")])])].

(** One active system with devices [0] and one enabled capability; one
    template, inactive as stored, whose parameter axes are [axes]; the
    benchmarks [benchmarks]. *)
Definition scenario (axes benchmarks : list (string * yaml)) : yaml :=
  YMap [("benchmarks-template",
         YMap [("base", YMap [("active", YBool false); ("docker", docker_section);
                              ("params", YMap axes)])]);
        ("systems",
         YMap [("dgx", YMap [("active", YBool true);
                             ("devices-ids", YList [YInt 0]);
                             ("compute-capabilities", YMap [("fp16", YBool true)])])]);
        ("benchmarks", YMap benchmarks);
        ("data", YMap [("imagenet", YStr "/mnt/imagenet")]);
        ("wandb", YMap [("active", YBool false)])].

Definition axes_A : list (string * yaml) :=
  [("batch-size", YList [YInt 32; YInt 64]); ("epochs", YList [YInt 1])].

Definition axes_A_lr : list (string * yaml) :=
  axes_A ++ [("learning-rate", YList [YFloat "0.001"])].

Definition one_benchmark : list (string * yaml) :=
  [("bert", YMap [("benchmark-template", YStr "base"); ("active", YBool true)])].


(** The system, and the configuration of the benchmark bert with its
    parameters resolved, as [generate_docker] receives them in scenario A
    completed with a learning rate. *)
Definition dgx : yaml :=
  YMap [("active", YBool true); ("devices-ids", YList [YInt 0]);
        ("compute-capabilities", YMap [("fp16", YBool true)])].

Definition bert_resolved (batch_size : Z) : yaml :=
  YMap [("active", YBool true); ("docker", docker_section);
        ("params", YMap [("batch-size", YInt batch_size); ("epochs", YInt 1);
                         ("learning-rate", YFloat "0.001")]);
        ("benchmark-template", YStr "base")].

Definition bert_row (run_name : string) : JobRecord :=
  experiment_row "bert" "dgx" "0" "fp16"
    (docker_run "d" run_name EmptyString "-v /mnt/imagenet:/data " "0" "/workspace"
       "fp16" "bert" "python train.py").

(** A configuration whose only system is switched off. *)
Definition idle_config : yaml :=
  YMap [("benchmarks-template", YMap []);
        ("systems", YMap [("dgx", YMap [("active", YBool false)])])].

(** ** Notions used to state the properties of generation *)

(** The cartesian product in lexicographic order, the first axis varying
    slowest and the last fastest: what the parameter expander is compared
    with. *)
Fixpoint cartesian {A} (pools : list (list A)) : list (list A) :=
  match pools with
  | [] => [[]]
  | p :: rest => x ← p; (x ::.) <$> cartesian rest
  end.

(** The product of the cardinalities of the axes. *)
Definition cardinality {A} (pools : list (list A)) : nat :=
  foldr (λ p n, length p * n)%nat 1%nat pools.

(** The keyword arguments that map each parameter name to its list of
    candidate values. *)
Definition kwargs_of (axes : list (string * list yaml)) : list (string * yaml) :=
  (λ kv, (kv.1, YList kv.2)) <$> axes.

(** What a row written by [generate_docker] looks like, for the benchmark
    [benchmark_name], whose configuration is [benchmark_config], on the system
    [system_name]: [docker_name] is built from the two names and the
    capability, while the launch command names the container after these and
    the batch size, the number of epochs and the learning rate of the
    parameters. *)
Definition generated_row (G : GenEnv) (benchmark_name system_name : string)
    (benchmark_config : yaml) (r : JobRecord) : Prop :=
  ∃ kw capability batch_size epochs learning_rate,
    getitem benchmark_config "params" = inr (YMap kw)
    ∧ Dict.get "batch-size" kw = Some batch_size
    ∧ Dict.get "epochs" kw = Some epochs
    ∧ Dict.get "learning-rate" kw = Some learning_rate
    ∧ ∃ run_mode wandb mounts devs workdir benchmark_cmd,
        r = experiment_row benchmark_name system_name devs capability
              (docker_run run_mode
                 (run_name_of G benchmark_name system_name capability
                    batch_size epochs learning_rate)
                 wandb mounts devs workdir capability benchmark_name benchmark_cmd).


(** ** Notions used to state the dispatcher's properties *)

(** The table once the containers loop has run: every row named like a live
    container is RUNNING. *)
Definition live_marked (names : list string) (t : list JobRecord) : list JobRecord :=
  (λ r, if bool_decide (docker_name r ∈ names) then with_status "RUNNING" r else r) <$> t.

(** The state in which the row loop starts. *)
Definition loop_entry (E : Env) (containers : list string) (w : world) : pass_state :=
  mkPass (live_marked containers (tracking_file w)) containers
         (last containers)
         (status_dict (gpustat E (w_queries w)))
         (S (w_queries w)) (w_trace w ++ [EvQuery (w_queries w)]).

(** The pass cut short after the rows of index below [i]. *)
Definition rows_before (E : Env) (interactive_mode : bool) (i : nat)
    (containers : list string) (w : world) : pass_state * (exn + unit) :=
  iterrows E interactive_mode O
    (take i (live_marked containers (tracking_file w))) (loop_entry E containers w).

(** The actions one pass adds to the trace. *)
Definition pass_events (E : Env) (interactive_mode : bool)
    (containers : list string) (w : world) : list event :=
  drop (length (w_trace w)) (w_trace (run_cycle E interactive_mode containers w).1).

(** Number of rows a loop over [rows] finds PENDING. *)
Definition pending_count (rows : list JobRecord) : nat :=
  length (filter (λ r, status r = "PENDING") rows).

(** The occupancy a row is judged on: the answer to the query numbered [n]. *)
Definition occupancy (E : Env) (n : nat) : gmap Z nat := status_dict (gpustat E n).

(** The state once the occupancy has been queried again. *)
Definition queried (E : Env) (st : pass_state) : pass_state :=
  set_dict (occupancy E (queries st)) (tick (emit (EvQuery (queries st)) st)).

(** A trace without the exit statuses of the launches. *)
Definition forget_rc (e : event) : event :=
  match e with
  | EvSystem idx c _ => EvSystem idx c 0
  | _ => e
  end.

(** How a pass may change a row: only its status, and only to RUNNING or
    STOPPED, and only if a live container bears its name. *)
Definition row_evolves (names : list string) (r r' : JobRecord) : Prop :=
  ∃ s, r' = with_status s r ∧
       (s = status r ∨ (docker_name r ∈ names ∧ (s = "RUNNING" ∨ s = "STOPPED"))).

(** What one row may do to the state of the pass. *)
Definition step_inv (lo hi : nat) (npending : nat) (st st' : pass_state)
    (res : exn + unit) : Prop :=
  running_containers_list st' = running_containers_list st
  ∧ container st' = container st
  ∧ (∃ evs, trace st' = (trace st ++ evs)%list
            ∧ ∀ j c rc, EvSystem j c rc ∈ evs → lo ≤ j < hi)%nat
  ∧ (queries st ≤ queries st')%nat
  ∧ (res = inr tt → queries st' = queries st + npending)%nat
  ∧ (df st' = df st
     ∨ ∃ c, container st = Some c ∧ df st' = loc_set_status c "STOPPED" (df st)).

(** No row of index up to [i] is RUNNING. *)
Definition none_running_upto (rows : list JobRecord) (i : nat) : Prop :=
  ∀ j r, (j ≤ i)%nat → rows !! j = Some r → status r ≠ "RUNNING".

(** Two states of the pass that differ at most in the occupancy dictionary
    and in what [f] erases from the trace. *)
Definition sim (f : event → event) (st1 st2 : pass_state) : Prop :=
  df st1 = df st2
  ∧ running_containers_list st1 = running_containers_list st2
  ∧ container st1 = container st2
  ∧ queries st1 = queries st2
  ∧ f <$> trace st1 = f <$> trace st2.

(** The environment [E] with other answers to the GPU queries. *)
Definition with_gpustat (g : nat → list gpu) (E : Env) : Env :=
  mkEnv (py_int E) g (shell E).

(** The environment [E] with other exit statuses of the launches. *)
Definition with_shell (sh : nat → string → Z) (E : Env) : Env :=
  mkEnv (py_int E) (gpustat E) sh.

(** ** Notions used to state further properties *)

(** A row the loop finds RUNNING although no listed container bears its
    name. *)
Definition stale (running : list string) (r : JobRecord) : Prop :=
  status r = "RUNNING" ∧ docker_name r ∉ running.

(** A device of a record that reads as an index the occupancy gives no
    process. *)
Definition device_idle (E : Env) (d : gmap Z nat) (g : string) : Prop :=
  ∃ k, py_int E g = Some k ∧ d !! k = Some O.

(** The piece [g] of a devices text reads as a device index to which the
    occupancy [d] gives [c] processes. *)
Definition device_count (E : Env) (d : gmap Z nat) (g : string) (c : nat) : Prop :=
  ∃ k, py_int E g = Some k ∧ d !! k = Some c.

(** What one row adds to the trace: nothing, a query, or a query, a launch
    and the settle delay. *)
Definition row_block (evs : list event) : Prop :=
  evs = []
  ∨ (∃ n, evs = [EvQuery n])
  ∨ (∃ n i c rc, evs = [EvQuery n; EvSystem i c rc; EvSleep 15]).

(** The state of generation with the rows [f] put before those of the
    tracking file. *)
Definition prepend (f : list JobRecord) (st : gen_state) : gen_state :=
  mkGen (templates st) (f ++ tracking st) (builds st).

(** A computation of generation that does the same whatever the tracking
    file already holds. *)
Definition frames {A} (m : M gen_state A) : Prop :=
  ∀ f st, m (prepend f st) = (prepend f (m st).1, (m st).2).

(** A computation of generation that only adds PENDING rows at the end of
    the tracking file. *)
Definition adds_pending {A} (m : M gen_state A) : Prop :=
  ∀ st, ∃ new, tracking (m st).1 = tracking st ++ new
               ∧ Forall (λ r, status r = "PENDING") new.

(** A computation of generation that runs no image build. *)
Definition keeps_builds {A} (m : M gen_state A) : Prop :=
  ∀ st, builds (m st).1 = builds st.

(** The benchmark configuration [generate_docker] receives for the
    assignment [ps]. *)
Definition with_params (kw ps : list (string * yaml)) : yaml :=
  YMap (Dict.set "params" (YMap ps) kw).

(** A value [itertools.product] cannot draw from. *)
Definition not_iterable (v : yaml) : Prop :=
  match v with
  | YNull | YBool _ | YInt _ | YFloat _ => True
  | _ => False
  end.

(** A text in which the character [sep] does not occur. *)
Fixpoint lacks (sep : ascii) (s : string) : Prop :=
  match s with
  | EmptyString => True
  | String c s' => c ≠ sep ∧ lacks sep s'
  end.

(** The devices text [generate_docker] writes for the device ids [ids]. *)
Definition devices_text (G : GenEnv) (ids : list yaml) : string :=
  Str.join "," (py_str G <$> ids).

(** The row indices of the launches of a trace, in order. *)
Definition launch_indices (evs : list event) : list nat :=
  omap (λ e, match e with EvSystem i _ _ => Some i | _ => None end) evs.

(** * Theorems *)

(** ** The parameter expander *)

Section Product.

Context {A : Type}.
Implicit Types (pools : list (list A)) (p : list A).

Lemma product_step_alt (result : list (list A)) p :
  product_step result p = x ← result; (λ y, x ++ [y]) <$> p.
Proof.
  unfold product_step. apply list_bind_ext; [|done]. intros x.
  induction p as [|y p IH]; [done|]. csimpl. by rewrite IH.
Qed.

Lemma product_step_app (l1 l2 : list (list A)) p :
  product_step (l1 ++ l2) p = product_step l1 p ++ product_step l2 p.
Proof. unfold product_step. apply bind_app. Qed.

Lemma product_step_cons_fmap (x : A) (l : list (list A)) p :
  product_step ((x ::.) <$> l) p = (x ::.) <$> product_step l p.
Proof.
  rewrite !product_step_alt.
  induction l as [|z l IH]; [done|]. csimpl. rewrite IH, fmap_app. f_equal.
  rewrite <- list_fmap_compose. by apply list_fmap_ext.
Qed.

Lemma cartesian_snoc pools p :
  cartesian (pools ++ [p]) = product_step (cartesian pools) p.
Proof.
  induction pools as [|q pools IH].
  - rewrite product_step_alt. cbn [app cartesian]. csimpl. rewrite app_nil_r.
    induction p as [|y p IHp]; [done|]. csimpl. by rewrite IHp.
  - cbn [app cartesian]. rewrite IH. clear IH.
    induction q as [|x q IHq]; [done|]. csimpl.
    by rewrite product_step_app, product_step_cons_fmap, IHq.
Qed.

Lemma product_snoc pools p :
  product (pools ++ [p]) = product_step (product pools) p.
Proof. unfold product. by rewrite fold_left_app. Qed.

(** [itertools.product] enumerates the cartesian product in lexicographic
    order. *)
Lemma product_cartesian pools : product pools = cartesian pools.
Proof.
  induction pools as [|p pools IH] using rev_ind; [done|].
  by rewrite product_snoc, cartesian_snoc, IH.
Qed.

Lemma length_cartesian pools : length (cartesian pools) = cardinality pools.
Proof.
  induction pools as [|p pools IH]; [done|]. simpl. rewrite <- IH. clear IH.
  induction p as [|x p IHp]; [done|]. csimpl.
  rewrite length_app, length_fmap, IHp. lia.
Qed.

Lemma elem_of_cartesian pools : ∀ l,
  l ∈ cartesian pools ↔ Forall2 (λ x p, x ∈ p) l pools.
Proof.
  induction pools as [|p pools IH]; intros l; simpl.
  - rewrite list_elem_of_singleton. split; [by intros ->|by inversion 1].
  - rewrite list_elem_of_bind. split.
    + intros (x & (l' & -> & Hl')%list_elem_of_fmap & Hx).
      constructor; [done|by apply IH].
    + inversion 1 as [|x p' l' pools' Hx Hl']; subst.
      exists x. split; [|done]. apply list_elem_of_fmap. exists l'.
      split; [done|by apply IH].
Qed.

Lemma NoDup_cartesian pools : Forall NoDup pools → NoDup (cartesian pools).
Proof.
  induction 1 as [|p pools Hp Hpools IH]; simpl; [apply NoDup_singleton|].
  apply NoDup_bind; [| |done].
  - intros x1 x2 l _ _ (l1 & -> & _)%list_elem_of_fmap (l2 & Heq & _)%list_elem_of_fmap.
    by inversion Heq.
  - intros x _. apply NoDup_fmap_2; [|done]. by intros l1 l2 [= ->].
Qed.

Lemma lookup_bind_blocks {B C} (g : B → list C) (n : nat) (l : list B) :
  (∀ x, length (g x) = n) →
  ∀ i j x, l !! i = Some x → (j < n)%nat →
  (l ≫= g) !! (i * n + j)%nat = g x !! j.
Proof.
  intros Hlen. induction l as [|z l IH]; intros i j x Hi Hj; [done|].
  rewrite bind_cons. destruct i as [|i]; simpl in Hi.
  - inversion Hi; subst. simpl. apply lookup_app_l. by rewrite Hlen.
  - rewrite lookup_app_r by (rewrite Hlen; lia).
    rewrite Hlen. replace (S i * n + j - n)%nat with (i * n + j)%nat by lia.
    by apply IH.
Qed.

(** The last axis varies fastest. *)
Lemma product_snoc_lookup pools p i j l y :
  product pools !! i = Some l → p !! j = Some y →
  product (pools ++ [p]) !! (i * length p + j)%nat = Some (l ++ [y]).
Proof.
  intros Hi Hj. rewrite product_snoc, product_step_alt.
  rewrite (lookup_bind_blocks _ (length p) _ (λ _, length_fmap _ _) i j l Hi)
    by (by apply lookup_lt_Some in Hj).
  by rewrite list_lookup_fmap, Hj.
Qed.

End Product.

(** *** Dictionaries and the assignments of [product_dict] *)

Lemma dict_get_None {V} k (d : list (string * V)) :
  k ∉ d.*1 → Dict.get k d = None.
Proof.
  induction d as [|[k' v] d IH]; [done|]. simpl. intros Hk.
  apply not_elem_of_cons in Hk as [Hne Hk].
  destruct (String.eqb_spec k' k) as [->|_]; [done|by apply IH].
Qed.

Lemma dict_set_absent {V} k (v : V) (d : list (string * V)) :
  k ∉ d.*1 → Dict.set k v d = d ++ [(k, v)].
Proof.
  induction d as [|[k' v'] d IH]; [done|]. simpl. intros Hk.
  apply not_elem_of_cons in Hk as [Hne Hk].
  destruct (String.eqb_spec k' k) as [->|_]; [done|]. by rewrite IH.
Qed.


Lemma dict_get_set_ne {V} k k' (v : V) (d : list (string * V)) :
  k ≠ k' → Dict.get k' (Dict.set k v d) = Dict.get k' d.
Proof.
  intros Hne. induction d as [|[k0 v0] d IH]; simpl.
  - by destruct (String.eqb_spec k k').
  - destruct (String.eqb_spec k0 k) as [->|Hk0]; simpl.
    + by destruct (String.eqb_spec k k').
    + by rewrite IH.
Qed.

Lemma dict_fold_set_fresh {V} (l2 : list (string * V)) : ∀ l1,
  NoDup (l1 ++ l2).*1 →
  fold_left (λ d kv, Dict.set kv.1 kv.2 d) l2 l1 = l1 ++ l2.
Proof.
  induction l2 as [|[k v] l2 IH]; intros l1 Hnd; simpl.
  - by rewrite app_nil_r.
  - rewrite dict_set_absent.
    + rewrite IH; rewrite <- app_assoc; done.
    + rewrite fmap_app in Hnd. apply NoDup_app in Hnd as (_ & Hd & _).
      intros Hin. apply (Hd k Hin). simpl. left.
Qed.

Lemma dict_of_pairs_fresh {V} (l : list (string * V)) :
  NoDup l.*1 → Dict.of_pairs l = l.
Proof. intros Hnd. unfold Dict.of_pairs. by rewrite dict_fold_set_fresh. Qed.

Lemma iter_all_lists (ls : list (list yaml)) : iter_all (YList <$> ls) = inr ls.
Proof.
  induction ls as [|l ls IH]; [done|].
  change (iter_all (YList <$> l :: ls))
    with (pool ← py_iter (YList l); pools ← iter_all (YList <$> ls);
          (inr (pool :: pools) : exn + list (list yaml))).
  by rewrite IH.
Qed.

Lemma kwargs_keys axes : Dict.keys (kwargs_of axes) = axes.*1.
Proof.
  unfold Dict.keys, kwargs_of. rewrite <- list_fmap_compose. by apply list_fmap_ext.
Qed.

Lemma kwargs_values axes : Dict.values (kwargs_of axes) = YList <$> axes.*2.
Proof.
  unfold Dict.values, kwargs_of. rewrite <- !list_fmap_compose. by apply list_fmap_ext.
Qed.

Lemma length_of_cartesian {A} (pools : list (list A)) l :
  l ∈ cartesian pools → length l = length pools.
Proof. intros H%elem_of_cartesian. by apply Forall2_length in H. Qed.

(** The assignments are the points of the cartesian product, each paired
    with the parameter names. *)
Lemma product_dict_cartesian axes :
  NoDup axes.*1 →
  product_dict (kwargs_of axes) = inr (zip axes.*1 <$> cartesian axes.*2).
Proof.
  intros Hnd. unfold product_dict.
  rewrite kwargs_keys, kwargs_values, iter_all_lists. simpl.
  rewrite product_cartesian. f_equal.
  apply list_fmap_ext. intros i l Hl. apply dict_of_pairs_fresh.
  apply list_elem_of_lookup_2, length_of_cartesian in Hl.
  rewrite length_fmap in Hl.
  rewrite fst_zip; [done|]. rewrite length_fmap. lia.
Qed.

(** C7. For every mapping from parameter names to ordered lists of candidate
    values, [product_dict] returns as many assignments as the product of the
    cardinalities of the axes; each assignment gives every parameter, in the
    order of the mapping, one value of its axis; the assignments are pairwise
    distinct when the values of each axis are; and they come in lexicographic
    order with the last parameter varying fastest: adding a parameter [k] with
    values [p] after the others puts the assignment number [i] extended with
    the value number [j] of [p] at position [i * length p + j].  The result is
    a function of the mapping. *)
Theorem product_dict_expansion (axes : list (string * list yaml)) :
  NoDup axes.*1 →
  ∃ assignments,
    product_dict (kwargs_of axes) = inr assignments
    ∧ assignments = zip axes.*1 <$> cartesian axes.*2
    ∧ length assignments = cardinality axes.*2
    ∧ (∀ a, a ∈ assignments →
         a.*1 = axes.*1 ∧ Forall2 (λ v axis, v ∈ axis) a.*2 axes.*2)
    ∧ (Forall NoDup axes.*2 → NoDup assignments)
    ∧ (∀ k p i j a y,
         k ∉ axes.*1 → assignments !! i = Some a → p !! j = Some y →
         ∃ assignments',
           product_dict (kwargs_of (axes ++ [(k, p)])) = inr assignments'
           ∧ assignments' !! (i * length p + j)%nat = Some (a ++ [(k, y)])).
Proof.
  intros Hnd. eexists. split; [by apply product_dict_cartesian|].
  split; [done|].
  assert (Hzip : ∀ l, l ∈ cartesian axes.*2 →
            (zip axes.*1 l).*1 = axes.*1 ∧ (zip axes.*1 l).*2 = l).
  { intros l Hl%length_of_cartesian. rewrite length_fmap in Hl.
    split; [apply fst_zip|apply snd_zip]; rewrite length_fmap; lia. }
  split; [by rewrite length_fmap, length_cartesian|].
  split; [|split].
  - intros a (l & -> & Hl)%list_elem_of_fmap.
    destruct (Hzip l Hl) as [-> ->]. split; [done|]. by apply elem_of_cartesian.
  - intros Haxes. apply NoDup_fmap_2_strong; [|by apply NoDup_cartesian].
    intros l1 l2 H1 H2 Heq.
    destruct (Hzip l1 H1) as [_ <-], (Hzip l2 H2) as [_ <-]. by rewrite Heq.
  - intros k p i j a y Hk Hi Hj.
    assert (Hnd' : NoDup (axes ++ [(k, p)]).*1).
    { rewrite fmap_app. apply NoDup_app. split; [done|]. split.
      - intros x Hx ->%list_elem_of_singleton. contradiction.
      - apply NoDup_singleton. }
    eexists. split; [by apply product_dict_cartesian|].
    rewrite list_lookup_fmap in Hi.
    destruct (cartesian axes.*2 !! i) as [l|] eqn:Hl; [|done].
    simpl in Hi. inversion Hi; subst a. clear Hi.
    rewrite !fmap_app. simpl. rewrite <- !product_cartesian.
    rewrite list_lookup_fmap.
    rewrite <- product_cartesian in Hl.
    rewrite (product_snoc_lookup _ _ _ _ _ _ Hl Hj). simpl. f_equal.
    rewrite product_cartesian in Hl.
    apply list_elem_of_lookup_2, length_of_cartesian in Hl.
    rewrite length_fmap in Hl.
    rewrite zip_with_app; [done|]. rewrite length_fmap. lia.
Qed.

(** ** Job generation *)

Lemma string_app_nil_r (s : string) : s +:+ EmptyString = s.
Proof. induction s as [|c s IH]; [done|]. cbv [String.append]. fold String.append. by rewrite IH. Qed.

Lemma string_app_assoc (s t u : string) : (s +:+ t) +:+ u = s +:+ t +:+ u.
Proof.
  induction s as [|c s IH]; [done|].
  change (String c ((s +:+ t) +:+ u) = String c (s +:+ t +:+ u)). by rewrite IH.
Qed.

Lemma string_app_neq (s t : string) : t ≠ EmptyString → s +:+ t ≠ s.
Proof.
  intros Ht Heq. rewrite <- (string_app_nil_r s) in Heq at 2.
  by apply String.app_inj in Heq.
Qed.

(** The name of the container is the text of [docker_name] followed by the
    parameters. *)
Lemma run_name_extends_docker_name G b s c bs ep lr :
  run_name_of G b s c bs ep lr =
    (b +:+ "-" +:+ s +:+ "-" +:+ c)
    +:+ "-B" +:+ py_str G bs +:+ "xE" +:+ py_str G ep +:+ "xLR" +:+ py_str G lr.
Proof. unfold run_name_of. by rewrite !string_app_assoc. Qed.

Lemma dict_get_update_other (k : string) (d2 : list (string * yaml)) : ∀ d1,
  k ∉ d2.*1 → Dict.get k (Dict.update d1 d2) = Dict.get k d1.
Proof.
  unfold Dict.update.
  induction d2 as [|[k' v] d2 IH]; intros d1 Hk; [done|]. simpl.
  apply not_elem_of_cons in Hk as [Hne Hk]. simpl in Hne.
  rewrite IH by done. by apply dict_get_set_ne.
Qed.

Lemma lookup_key_replacements kw NV NB s b c k v :
  k ∉ ["NVIDIA_VISIBLE_DEVICES"; "NB_CUDA_DEVICES"; "SYSTEM_NAME";
       "BENCHMARK_NAME"; "CAPABILITY"] →
  lookup_key (Dict.update kw (extra_replacements NV NB s b c)) k = inr v →
  Dict.get k kw = Some v.
Proof.
  intros Hk. unfold lookup_key. rewrite dict_get_update_other by done.
  destruct (Dict.get k kw); by inversion 1.
Qed.

Ltac not_among :=
  let Hin := fresh "Hin" in
  intros Hin;
  repeat (apply elem_of_cons in Hin as [Hin|Hin]; [discriminate Hin|]);
  by apply elem_of_nil in Hin.

Ltac inv_binds H :=
  unfold mbind, exn_bind in H;
  repeat match type of H with
         | context [match ?m with inl _ => _ | inr _ => _ end] =>
             let E := fresh "Heq" in
             destruct m eqn:E; [discriminate H|]
         end.

Lemma experiment_generated G im s b bc wc NV NB mounts capability r :
  experiment G im s b bc wc NV NB mounts capability = inr (Some r) →
  generated_row G b s bc r.
Proof.
  intros H. unfold experiment in H. inv_binds H.
  destruct b1; simpl in H; [|discriminate H]. inv_binds H.
  inversion H; subst r; clear H.
  destruct y; try discriminate. inversion Heq2; subst l; clear Heq2.
  exists m, capability, y6, y7, y8.
  split; [done|]. split; [|split; [|split]].
  - apply (lookup_key_replacements m NV NB s b capability); [not_among|exact Heq12].
  - apply (lookup_key_replacements m NV NB s b capability); [not_among|exact Heq13].
  - apply (lookup_key_replacements m NV NB s b capability); [not_among|exact Heq14].
  - by eexists _, _, _, _, _, _.
Qed.

Lemma capabilities_loop_generated G im s b bc wc NV NB mounts caps :
  ∀ acc rows,
    capabilities_loop G im s b bc wc NV NB mounts caps acc = inr rows →
    Forall (generated_row G b s bc) acc →
    Forall (generated_row G b s bc) rows.
Proof.
  induction caps as [|[capability is_active] caps IH];
    intros acc rows H Hacc; simpl in H.
  - by inversion H; subst.
  - destruct (truthy is_active); [|by eapply IH].
    unfold mbind, exn_bind in H.
    destruct (experiment G im s b bc wc NV NB mounts capability) as [e|[r|]] eqn:Hrow;
      [discriminate| |by eapply IH].
    eapply IH; [done|]. apply Forall_app. split; [done|].
    apply Forall_singleton. by eapply experiment_generated.
Qed.

(** Every row [generate_docker] writes is PENDING, and its container is named
    after the benchmark, the system, the capability, the batch size, the
    number of epochs and the learning rate. *)
Lemma experiments_of_generated G s sc b bc dc wc im rows :
  experiments_of G s sc b bc dc wc im = inr rows →
  Forall (generated_row G b s bc) rows.
Proof.
  intros H. unfold experiments_of in H. inv_binds H.
  by eapply capabilities_loop_generated.
Qed.

Lemma generated_row_names G b s bc r :
  generated_row G b s bc r →
  ∃ capability batch_size epochs learning_rate,
    docker_name r = b +:+ "-" +:+ s +:+ "-" +:+ capability
    ∧ docker_name r ≠ run_name_of G b s capability batch_size epochs learning_rate.
Proof.
  intros (kw & capability & bs & ep & lr & _ & _ & _ & _ & rm & wb & mt & dv & wd & bcmd & ->).
  exists capability, bs, ep, lr. split; [done|]. simpl.
  rewrite run_name_extends_docker_name. intros Heq. symmetry in Heq. revert Heq.
  apply string_app_neq. discriminate.
Qed.

(** ** The dispatcher *)

Section DispatcherFacts.

Variable E : Env.
Variable interactive_mode : bool.

Lemma with_status_same r : with_status (status r) r = r.
Proof. by destruct r. Qed.

Lemma live_marked_cons n names t :
  live_marked names (loc_set_status n "RUNNING" t) = live_marked (n :: names) t.
Proof.
  unfold live_marked, loc_set_status. rewrite <- list_fmap_compose.
  apply list_fmap_ext. intros _ r _. simpl.
  destruct (bool_decide_reflect (docker_name r = n)) as [Hn|Hn]; simpl.
  - rewrite (bool_decide_eq_true_2 (docker_name r ∈ n :: names)) by (subst; left).
    by destruct (bool_decide (docker_name r ∈ names)).
  - destruct (bool_decide_reflect (docker_name r ∈ names)) as [Hin|Hin].
    + by rewrite bool_decide_eq_true_2 by (by right).
    + rewrite bool_decide_eq_false_2; [done|].
      intros [?|?]%elem_of_cons; contradiction.
Qed.

Lemma live_marked_nil t : live_marked [] t = t.
Proof.
  unfold live_marked. rewrite <- (list_fmap_id t) at 2.
  apply list_fmap_ext. intros _ r _.
  rewrite bool_decide_eq_false_2; [done|]. apply not_elem_of_nil.
Qed.

Lemma containers_loop_spec names st :
  containers_loop names st =
    (mkPass (live_marked names (df st)) (running_containers_list st ++ names)
            (match last names with Some n => Some n | None => container st end)
            (gpus_status_dict st) (queries st) (trace st), inr tt).
Proof.
  revert st. induction names as [|n names IH]; intros st.
  - simpl. rewrite live_marked_nil, app_nil_r. by destruct st.
  - cbn [containers_loop]. unfold mbind, M_bind, modify. rewrite IH. simpl.
    rewrite live_marked_cons, <- app_assoc. simpl.
    destruct names as [|m names]; [done|].
    change (last (n :: m :: names)) with (last (m :: names)).
    destruct (last_is_Some (m :: names)) as [_ [x ->]]; done.
Qed.

Lemma refresh_status_dict_spec st :
  refresh_status_dict E st =
    (set_dict (status_dict (gpustat E (queries st)))
              (tick (emit (EvQuery (queries st)) st)), inr tt).
Proof. reflexivity. Qed.

Lemma run_cycle_body_spec containers w :
  run_cycle_body E interactive_mode containers (enter w) =
    iterrows E interactive_mode O
      (live_marked containers (tracking_file w)) (loop_entry E containers w).
Proof.
  unfold run_cycle_body.
  unfold mbind at 1, M_bind at 1. rewrite refresh_status_dict_spec.
  unfold mbind at 1, M_bind at 1. rewrite containers_loop_spec.
  unfold mbind, M_bind, gets. simpl.
  unfold loop_entry. by destruct (last containers).
Qed.

(** *** One row *)

Lemma row_step_stale idx row st :
  status row = "RUNNING" →
  docker_name row ∉ running_containers_list st →
  row_step E interactive_mode idx row st =
    match container st with
    | None => (st, inl (UnboundLocalError "container"))
    | Some c => (set_df (loc_set_status c "STOPPED") st, inr tt)
    end.
Proof.
  intros Hs Hn. unfold row_step, mbind, M_bind, gets. simpl.
  rewrite (bool_decide_eq_true_2 _ Hs), (bool_decide_eq_false_2 _ Hn). simpl.
  rewrite (bool_decide_eq_false_2 (status row = "PENDING")) by (rewrite Hs; discriminate).
  by destruct (container st).
Qed.

Lemma row_step_pending idx row st :
  status row = "PENDING" →
  row_step E interactive_mode idx row st =
    match nb_processes E (occupancy E (queries st)) row with
    | inl e => (queried E st, inl e)
    | inr O =>
        let c := launch_cmd interactive_mode row in
        (emit (EvSleep 15)
           (emit (EvSystem idx c (shell E (length (trace (queried E st))) c)) (queried E st)),
         inr tt)
    | inr (S _) => (queried E st, inr tt)
    end.
Proof.
  intros Hs. unfold row_step, mbind, M_bind, gets. simpl.
  rewrite (bool_decide_eq_false_2 (status row = "RUNNING")) by (rewrite Hs; discriminate).
  rewrite (bool_decide_eq_true_2 _ Hs). simpl.
  unfold lift, occupancy.
  destruct (nb_processes E (status_dict (gpustat E (queries st))) row) as [e|[|n]];
    reflexivity.
Qed.

Lemma row_step_other idx row st :
  status row ≠ "PENDING" →
  (status row = "RUNNING" → docker_name row ∈ running_containers_list st) →
  row_step E interactive_mode idx row st = (st, inr tt).
Proof.
  intros Hp Hr. unfold row_step, mbind, M_bind, gets. simpl.
  rewrite (bool_decide_eq_false_2 _ Hp).
  destruct (bool_decide_reflect (status row = "RUNNING")) as [Hs|Hs]; simpl; [|done].
  by rewrite (bool_decide_eq_true_2 _ (Hr Hs)).
Qed.

(** The three ways a row is treated. *)
Lemma row_step_cases row st :
  (status row = "RUNNING" ∧ docker_name row ∉ running_containers_list st)
  ∨ status row = "PENDING"
  ∨ (status row ≠ "PENDING" ∧
     (status row = "RUNNING" → docker_name row ∈ running_containers_list st)).
Proof.
  destruct (decide (status row = "PENDING")) as [|Hp]; [by right; left|].
  destruct (decide (status row = "RUNNING")) as [Hr|Hr].
  - destruct (decide (docker_name row ∈ running_containers_list st)); [|by left].
    right; right. by split.
  - right; right. by split.
Qed.

Lemma loc_set_status_twice c s t :
  loc_set_status c s (loc_set_status c s t) = loc_set_status c s t.
Proof.
  unfold loc_set_status. rewrite <- list_fmap_compose.
  apply list_fmap_ext. intros _ r _. simpl.
  destruct (bool_decide_reflect (docker_name r = c)) as [H|H]; simpl.
  - by rewrite (bool_decide_eq_true_2 _ H).
  - by rewrite (bool_decide_eq_false_2 _ H).
Qed.

Lemma step_inv_refl lo hi st : step_inv lo hi 0 st st (inr tt).
Proof.
  repeat split; try done; try lia.
  - exists []. split; [by rewrite app_nil_r|]. by intros j c rc ?%elem_of_nil.
  - by left.
Qed.

Lemma step_inv_refl_at lo hi row st :
  status row ≠ "PENDING" → step_inv lo hi (pending_count [row]) st st (inr tt).
Proof.
  intros Hp. unfold pending_count. rewrite filter_cons_False by done.
  apply step_inv_refl.
Qed.

Lemma step_inv_trans lo mid hi n1 n2 st1 st2 st3 res :
  step_inv lo mid n1 st1 st2 (inr tt) →
  step_inv mid hi n2 st2 st3 res →
  (lo ≤ mid ≤ hi)%nat →
  step_inv lo hi (n1 + n2) st1 st3 res.
Proof.
  intros (Hr1 & Hc1 & (ev1 & Ht1 & He1) & Hq1 & Hn1 & Hd1)
         (Hr2 & Hc2 & (ev2 & Ht2 & He2) & Hq2 & Hn2 & Hd2) Hlo.
  repeat split.
  - congruence.
  - congruence.
  - exists (ev1 ++ ev2). split; [by rewrite Ht2, Ht1, app_assoc|].
    intros j c rc [Hin|Hin]%elem_of_app.
    + apply He1 in Hin. lia.
    + apply He2 in Hin. lia.
  - lia.
  - intros Hres. rewrite (Hn2 Hres), (Hn1 eq_refl). lia.
  - destruct Hd1 as [Hd1|(c & Hc & Hd1)], Hd2 as [Hd2|(c' & Hc' & Hd2)].
    + left. congruence.
    + right. exists c'. split; congruence.
    + right. exists c. split; congruence.
    + right. exists c. split; [done|].
      assert (c' = c) by congruence. subst c'.
      by rewrite Hd2, Hd1, loc_set_status_twice.
Qed.

Lemma row_step_inv idx row st st' res :
  row_step E interactive_mode idx row st = (st', res) →
  step_inv idx (S idx) (pending_count [row]) st st' res.
Proof.
  intros Hrun.
  assert (Hnil : ∀ evs : list event, evs = [] →
            ∀ j c rc, EvSystem j c rc ∈ evs → (idx ≤ j < S idx)%nat)
    by (intros ? -> j c rc ?%elem_of_nil; done).
  destruct (row_step_cases row st) as [[Hs Hn]|[Hp|[Hp Hr]]].
  - rewrite (row_step_stale _ _ _ Hs Hn) in Hrun.
    assert (pending_count [row] = 0%nat) as ->.
    { unfold pending_count. rewrite filter_cons_False by (rewrite Hs; discriminate). done. }
    destruct (container st) as [c|] eqn:Hc; inversion Hrun; subst; clear Hrun.
    + repeat split; simpl; try done; try lia.
      * exists []. split; [by rewrite app_nil_r|]. by apply Hnil.
      * right. by exists c.
    + repeat split; simpl; try done; try lia.
      * exists []. split; [by rewrite app_nil_r|]. by apply Hnil.
      * by left.
  - rewrite (row_step_pending _ _ _ Hp) in Hrun.
    assert (pending_count [row] = 1%nat) as ->.
    { unfold pending_count. by rewrite filter_cons_True. }
    destruct (nb_processes E (occupancy E (queries st)) row) as [e|[|n]];
      inversion Hrun; subst; clear Hrun;
      (repeat split; simpl; try done; try lia; [|by left]).
    + exists [EvQuery (queries st)]. split; [done|].
      intros j c rc ?%list_elem_of_singleton; discriminate.
    + eexists [EvQuery (queries st); EvSystem idx _ _; EvSleep 15].
      split; [by rewrite <- !app_assoc|].
      intros j c rc Hin. repeat (apply elem_of_cons in Hin as [Hin|Hin]);
        try discriminate.
      * inversion Hin; subst. lia.
      * by apply elem_of_nil in Hin.
    + exists [EvQuery (queries st)]. split; [done|].
      intros j c rc ?%list_elem_of_singleton; discriminate.
  - rewrite (row_step_other _ _ _ Hp Hr) in Hrun. inversion Hrun; subst.
    assert (pending_count [row] = 0%nat) as ->.
    { unfold pending_count. by rewrite filter_cons_False. }
    apply step_inv_refl.
Qed.

Lemma iterrows_cons k row rest st :
  iterrows E interactive_mode k (row :: rest) st =
    match row_step E interactive_mode k row st with
    | (st', inr _) => iterrows E interactive_mode (S k) rest st'
    | (st', inl e) => (st', inl e)
    end.
Proof. reflexivity. Qed.

Lemma pending_count_cons row rest :
  pending_count (row :: rest) = (pending_count [row] + pending_count rest)%nat.
Proof.
  unfold pending_count.
  destruct (decide (status row = "PENDING")) as [H|H].
  - by rewrite !filter_cons_True.
  - by rewrite !filter_cons_False.
Qed.

Lemma pending_count_app l1 l2 :
  pending_count (l1 ++ l2) = (pending_count l1 + pending_count l2)%nat.
Proof. unfold pending_count. by rewrite filter_app, length_app. Qed.

Lemma step_inv_raise lo mid hi n n' st st' e :
  step_inv lo mid n st st' (inl e) → (mid ≤ hi)%nat →
  step_inv lo hi n' st st' (inl e).
Proof.
  intros (Hr & Hc & (ev & Ht & He) & Hq & Hn & Hd) Hle.
  repeat split; try done.
  exists ev. split; [done|]. intros j c rc Hin. apply He in Hin. lia.
Qed.

Lemma iterrows_inv rows : ∀ k st st' res,
  iterrows E interactive_mode k rows st = (st', res) →
  step_inv k (k + length rows) (pending_count rows) st st' res.
Proof.
  induction rows as [|row rest IH]; intros k st st' res Hrun.
  - inversion Hrun; subst. apply step_inv_refl.
  - rewrite iterrows_cons in Hrun.
    destruct (row_step E interactive_mode k row st) as [st1 [e|[]]] eqn:Hrow.
    + inversion Hrun; subst.
      apply row_step_inv in Hrow.
      eapply step_inv_raise; [exact Hrow|]. simpl. lia.
    + apply row_step_inv in Hrow. apply IH in Hrun.
      rewrite pending_count_cons.
      eapply step_inv_trans; [exact Hrow| |simpl; lia].
      by replace (k + length (row :: rest))%nat with (S k + length rest)%nat
        by (simpl; lia).
Qed.

Lemma iterrows_app l1 : ∀ k l2 st,
  iterrows E interactive_mode k (l1 ++ l2) st =
    match iterrows E interactive_mode k l1 st with
    | (st', inr _) => iterrows E interactive_mode (k + length l1) l2 st'
    | (st', inl e) => (st', inl e)
    end.
Proof.
  induction l1 as [|row l1 IH]; intros k l2 st.
  - simpl. by rewrite Nat.add_0_r.
  - rewrite <- app_comm_cons, !iterrows_cons.
    destruct (row_step E interactive_mode k row st) as [st1 [e|[]]]; [done|].
    rewrite IH. simpl. by rewrite Nat.add_succ_r.
Qed.

Lemma run_cycle_trace containers w :
  w_trace (run_cycle E interactive_mode containers w).1 =
    trace (run_cycle_body E interactive_mode containers (enter w)).1.
Proof.
  unfold run_cycle.
  by destruct (run_cycle_body E interactive_mode containers (enter w)) as [st [e|[]]].
Qed.

Lemma run_cycle_queries containers w :
  w_queries (run_cycle E interactive_mode containers w).1 =
    queries (run_cycle_body E interactive_mode containers (enter w)).1.
Proof.
  unfold run_cycle.
  by destruct (run_cycle_body E interactive_mode containers (enter w)) as [st [e|[]]].
Qed.


(** The events of a pass, split around the row of index [i] when the pass
    reaches it. *)
Lemma pass_events_split containers w i r st_i :
  live_marked containers (tracking_file w) !! i = Some r →
  rows_before E interactive_mode i containers w = (st_i, inr tt) →
  ∃ before after st_r res,
    row_step E interactive_mode i r st_i = (st_r, res)
    ∧ queries st_i =
        (w_queries w + 1
         + pending_count (take i (live_marked containers (tracking_file w))))%nat
    ∧ pass_events E interactive_mode containers w =
        before ++ drop (length (trace st_i)) (trace st_r) ++ after
    ∧ (∀ j c rc, EvSystem j c rc ∈ before → j < i)%nat
    ∧ (∀ j c rc, EvSystem j c rc ∈ after → i < j)%nat.
Proof.
  intros Hi Hbefore. unfold rows_before in Hbefore.
  set (rows := live_marked containers (tracking_file w)) in *.
  assert (Hlen : length (take i rows) = i).
  { apply length_take_le. apply lookup_lt_Some in Hi. lia. }
  unfold pass_events. rewrite run_cycle_trace, run_cycle_body_spec. fold rows.
  assert (Hrun : iterrows E interactive_mode 0 rows (loop_entry E containers w) =
            match row_step E interactive_mode i r st_i with
            | (st', inr _) => iterrows E interactive_mode (S i) (drop (S i) rows) st'
            | (st', inl e) => (st', inl e)
            end).
  { transitivity (iterrows E interactive_mode 0 (take i rows ++ r :: drop (S i) rows)
                    (loop_entry E containers w)); [by rewrite take_drop_middle|].
    by rewrite iterrows_app, Hbefore, Hlen. }
  rewrite Hrun. clear Hrun.
  apply iterrows_inv in Hbefore as (_ & _ & (ev0 & Ht0 & He0) & _ & Hq0 & _).
  destruct (row_step E interactive_mode i r st_i) as [st_r res] eqn:Hrow.
  pose proof (row_step_inv _ _ _ _ _ Hrow) as (_ & _ & (ev1 & Ht1 & He1) & _).
  exists (EvQuery (w_queries w) :: ev0).
  assert (Hdrop : drop (length (trace st_i)) (trace st_r) = ev1).
  { by rewrite Ht1, drop_app_length. }
  assert (Hq : queries st_i = (w_queries w + 1 + pending_count (take i rows))%nat).
  { rewrite (Hq0 eq_refl). simpl. lia. }
  assert (Hb : ∀ j c rc, EvSystem j c rc ∈ EvQuery (w_queries w) :: ev0 → (j < i)%nat).
  { intros j c rc [Hin|Hin]%elem_of_cons; [discriminate|].
    apply He0 in Hin. lia. }
  simpl in Ht0.
  destruct res as [e|[]].
  - exists [], st_r, (inl e). rewrite Hdrop, app_nil_r.
    repeat split; try done.
    + simpl. rewrite Ht1, Ht0, <- !app_assoc. by rewrite drop_app_length.
    + by intros j c rc ?%elem_of_nil.
  - destruct (iterrows E interactive_mode (S i) (drop (S i) rows) st_r)
      as [st_f res] eqn:Hrest.
    pose proof (iterrows_inv _ _ _ _ _ Hrest) as (_ & _ & (ev2 & Ht2 & He2) & _).
    exists ev2, st_r, (inr ()). rewrite Hdrop.
    repeat split; try done.
    + simpl. rewrite Ht2, Ht1, Ht0, <- !app_assoc.
      by rewrite drop_app_length.
    + intros j c rc Hin. apply He2 in Hin. lia.
Qed.

(** The decision taken on a row the loop finds PENDING. *)
Lemma launch_decision containers w i r st_i :
  live_marked containers (tracking_file w) !! i = Some r →
  status r = "PENDING" →
  rows_before E interactive_mode i containers w = (st_i, inr tt) →
  let n := (w_queries w + 1
            + pending_count (take i (live_marked containers (tracking_file w))))%nat in
  let evs := pass_events E interactive_mode containers w in
  ((∃ c rc, EvSystem i c rc ∈ evs) ↔ nb_processes E (occupancy E n) r = inr O)
  ∧ (∀ c rc, EvSystem i c rc ∈ evs → c = launch_cmd interactive_mode r).
Proof.
  intros Hi' Hp Hbefore n evs.
  destruct (pass_events_split _ _ _ _ _ Hi' Hbefore)
    as (before & after & st_r & res & Hrow & Hq & Hev & Hb & Ha).
  fold n in Hq. fold evs in Hev.
  rewrite (row_step_pending _ _ _ Hp), Hq in Hrow.
  assert (Hmid : ∀ c rc, EvSystem i c rc ∈ evs ↔
            EvSystem i c rc ∈ drop (length (trace st_i)) (trace st_r)).
  { intros c rc. rewrite Hev, !elem_of_app. split; [|tauto].
    intros [Hin|[Hin|Hin]]; [apply Hb in Hin; lia|done|apply Ha in Hin; lia]. }
  destruct (nb_processes E (occupancy E n) r) as [e|[|k]];
    inversion Hrow; subst st_r; clear Hrow.
  - assert (Hnone : ∀ c rc, ¬ EvSystem i c rc ∈ evs).
    { intros c rc. rewrite Hmid. simpl. rewrite drop_app_length.
      intros ?%list_elem_of_singleton; discriminate. }
    split; [|intros c rc Hin; by apply Hnone in Hin].
    split; [intros (c & rc & Hin); by apply Hnone in Hin|discriminate].
  - assert (Hdrop : ∀ c rc, EvSystem i c rc ∈ evs →
              c = launch_cmd interactive_mode r).
    { intros c rc. rewrite Hmid. simpl. rewrite <- !app_assoc, drop_app_length.
      intros Hin. repeat (apply elem_of_cons in Hin as [Hin|Hin]);
        try discriminate; [by inversion Hin|by apply elem_of_nil in Hin]. }
    split; [|done]. split; [done|]. intros _.
    eexists _, _. rewrite Hmid. simpl. rewrite <- !app_assoc, drop_app_length.
    right; left.
  - assert (Hnone : ∀ c rc, ¬ EvSystem i c rc ∈ evs).
    { intros c rc. rewrite Hmid. simpl. rewrite drop_app_length.
      intros ?%list_elem_of_singleton; discriminate. }
    split; [|intros c rc Hin; by apply Hnone in Hin].
    split; [intros (c & rc & Hin); by apply Hnone in Hin|discriminate].
Qed.



(** *** What a pass does to the table *)

Lemma row_evolves_refl names r : row_evolves names r r.
Proof. exists (status r). split; [by rewrite with_status_same|by left]. Qed.

Lemma row_evolves_marked names r :
  row_evolves names r
    (if bool_decide (docker_name r ∈ names) then with_status "RUNNING" r else r).
Proof.
  destruct (bool_decide_reflect (docker_name r ∈ names)) as [Hin|Hin].
  - exists "RUNNING". split; [done|]. right. split; [done|by left].
  - apply row_evolves_refl.
Qed.

Lemma row_evolves_stopped names c r r' :
  c ∈ names → row_evolves names r r' →
  row_evolves names r
    (if bool_decide (docker_name r' = c) then with_status "STOPPED" r' else r').
Proof.
  intros Hc (s & -> & Hs). simpl.
  destruct (bool_decide_reflect (docker_name r = c)) as [Hn|Hn].
  - exists "STOPPED". split; [done|]. right. subst c. split; [done|by right].
  - by exists s.
Qed.

Lemma last_elem_of (names : list string) c : last names = Some c → c ∈ names.
Proof.
  intros H. apply last_Some in H as [l' ->]. apply elem_of_app. right. left.
Qed.

(** The table in memory when the row loop ends or is interrupted. *)
Lemma run_cycle_body_df containers w :
  let st := (run_cycle_body E interactive_mode containers (enter w)).1 in
  df st = live_marked containers (tracking_file w)
  ∨ ∃ c, last containers = Some c
         ∧ df st = loc_set_status c "STOPPED" (live_marked containers (tracking_file w)).
Proof.
  simpl. rewrite run_cycle_body_spec.
  destruct (iterrows E interactive_mode 0 (live_marked containers (tracking_file w))
              (loop_entry E containers w)) as [st res] eqn:Hrun.
  by apply iterrows_inv in Hrun as (_ & _ & _ & _ & _ & Hdf).
Qed.

Lemma run_cycle_row containers w i r :
  tracking_file w !! i = Some r →
  ∃ r', tracking_file (run_cycle E interactive_mode containers w).1 !! i = Some r'
        ∧ row_evolves containers r r'.
Proof.
  intros Hi. pose proof (run_cycle_body_df containers w) as Hdf. simpl in Hdf.
  unfold run_cycle.
  destruct (run_cycle_body E interactive_mode containers (enter w)) as [st [e|[]]];
    simpl in *.
  - exists r. split; [done|apply row_evolves_refl].
  - destruct Hdf as [->|(c & Hc & ->)].
    + unfold live_marked. rewrite list_lookup_fmap, Hi. simpl.
      eexists; split; [done|apply row_evolves_marked].
    + unfold loc_set_status, live_marked. rewrite !list_lookup_fmap, Hi. simpl.
      eexists; split; [done|].
      apply row_evolves_stopped; [by apply last_elem_of|apply row_evolves_marked].
Qed.

(** C2 (the code departs from it). A record that is RUNNING and whose
    docker_name is absent from the live container names is left exactly as it
    was by a reconciliation pass: it is never marked STOPPED. *)
Theorem stale_record_is_not_stopped containers w i r :
  tracking_file w !! i = Some r →
  status r = "RUNNING" →
  docker_name r ∉ containers →
  tracking_file (run_cycle E interactive_mode containers w).1 !! i = Some r.
Proof.
  intros Hi _ Hn.
  destruct (run_cycle_row containers w i r Hi) as (r' & Hr' & s & -> & Hs).
  rewrite Hr'. destruct Hs as [->|[Hin _]]; [|contradiction].
  by rewrite with_status_same.
Qed.

(** *** Rows read when the loop starts or when their turn comes *)

Lemma iterrows_live_eq (copt : option string) (running : list string) : ∀ rest i st,
  container st = copt →
  running_containers_list st = running →
  (∀ c, copt = Some c → c ∈ running) →
  (∀ r c, r ∈ rest → copt = Some c → docker_name r = c → status r = "RUNNING") →
  (∀ j r, rest !! j = Some r →
     df st !! (i + j)%nat = Some r
     ∨ (copt = Some (docker_name r)
        ∧ df st !! (i + j)%nat = Some (with_status "STOPPED" r))) →
  iterrows_live E interactive_mode (length rest) i st
    = iterrows E interactive_mode i rest st.
Proof.
  induction rest as [|a rest IH]; intros i st Hc Hr Hin Hrun Hrows; [done|].
  cbn [length iterrows_live]. rewrite iterrows_cons.
  unfold mbind at 1, M_bind at 1, gets at 1.
  assert (Hnext : ∀ st1, step_inv i (S i) (pending_count [a]) st st1 (inr tt) →
            iterrows_live E interactive_mode (length rest) (S i) st1
              = iterrows E interactive_mode (S i) rest st1).
  { intros st1 (Hr1 & Hc1 & _ & _ & _ & Hdf).
    apply IH.
    - congruence.
    - congruence.
    - done.
    - intros r c Hr0. apply Hrun. by right.
    - intros j r Hj. replace (S i + j)%nat with (i + S j)%nat by lia.
      destruct (Hrows (S j) r Hj) as [Hl|[Hcr Hl]];
        destruct Hdf as [->|(c & Hcc & ->)]; try (by left); try (by right).
      + unfold loc_set_status. rewrite list_lookup_fmap, Hl. simpl.
        destruct (bool_decide_reflect (docker_name r = c)) as [Hn|Hn]; [|by left].
        right. split; [congruence|done].
      + unfold loc_set_status. rewrite list_lookup_fmap, Hl. simpl.
        right. split; [done|]. by destruct (bool_decide _). }
  destruct (Hrows O a eq_refl) as [Hl|[Hcr Hl]]; rewrite Nat.add_0_r in Hl; rewrite Hl.
  - fold (row_step E interactive_mode i a ≫= λ _, iterrows_live E interactive_mode (length rest) (S i)).
    unfold mbind, M_bind.
    destruct (row_step E interactive_mode i a st) as [st1 [e|[]]] eqn:Hrow; [done|].
    apply Hnext. by apply row_step_inv.
  - assert (Hs : status a = "RUNNING") by (eapply Hrun; [left|done..]).
    assert (Ha : docker_name a ∈ running_containers_list st)
      by (rewrite Hr; by apply Hin).
    unfold mbind, M_bind.
    rewrite (row_step_other _ (with_status "STOPPED" a) st) by (simpl; done).
    rewrite (row_step_other _ a st) by (rewrite Hs; done).
    apply Hnext. apply step_inv_refl_at. rewrite Hs. discriminate.
Qed.

(** The row loop of a pass does the same whether every row is read when the
    loop starts or when its turn comes. *)
Lemma iterrows_live_agrees containers w :
  let rows := live_marked containers (tracking_file w) in
  iterrows_live E interactive_mode (length rows) O (loop_entry E containers w)
    = iterrows E interactive_mode O rows (loop_entry E containers w).
Proof.
  intros rows. apply (iterrows_live_eq (last containers) containers).
  - done.
  - done.
  - intros c. apply last_elem_of.
  - intros r c Hr Hc <-. apply last_elem_of in Hc.
    unfold rows, live_marked in Hr.
    apply list_elem_of_fmap in Hr as (r0 & -> & _).
    destruct (bool_decide_reflect (docker_name r0 ∈ containers)) as [Hin|Hin]; [done|].
    by destruct Hin.
  - intros j r Hj. by left.
Qed.

(** *** No live container *)

Lemma iterrows_unbound rows : ∀ k st,
  container st = None →
  running_containers_list st = [] →
  (∃ r, r ∈ rows ∧ status r = "RUNNING") →
  ∃ st' e,
    iterrows E interactive_mode k rows st = (st', inl e)
    ∧ (e = UnboundLocalError "container"
       ∨ ∃ i r, rows !! i = Some r ∧ status r = "PENDING"
                ∧ none_running_upto rows i
                ∧ nb_processes E
                    (occupancy E (queries st + pending_count (take i rows))) r
                  = inl e).
Proof.
  induction rows as [|row rest IH]; intros k st Hc Hr (r & Hin & Hs).
  { by apply elem_of_nil in Hin. }
  rewrite iterrows_cons.
  destruct (row_step_cases row st) as [[Hs' Hn]|[Hp|[Hp Hr']]].
  - rewrite (row_step_stale _ _ _ Hs' Hn), Hc. eexists _, _. split; [done|by left].
  - rewrite (row_step_pending _ _ _ Hp).
    destruct (nb_processes E (occupancy E (queries st)) row) as [e|n] eqn:Hnb.
    + eexists _, _. split; [done|]. right. exists O, row. simpl.
      rewrite Nat.add_0_r. repeat split; try done.
      intros j r' Hj Hr'. assert (j = O) as -> by lia. simpl in Hr'.
      inversion Hr'; subst. rewrite Hp. discriminate.
    + assert (Hrest : ∃ r, r ∈ rest ∧ status r = "RUNNING").
      { apply elem_of_cons in Hin as [->|Hin]; [|by eauto].
        rewrite Hp in Hs. discriminate. }
      assert (Hnext : ∃ st1, container st1 = None ∧ running_containers_list st1 = []
                ∧ queries st1 = S (queries st)
                ∧ (match n with
                   | O =>
                       let c := launch_cmd interactive_mode row in
                       (emit (EvSleep 15)
                          (emit (EvSystem k c (shell E (length (trace (queried E st))) c))
                             (queried E st)), inr ())
                   | S _ => (queried E st, inr ())
                   end) = (st1, inr () : exn + ())).
      { destruct n; eexists; (split; [|split; [|split]]); try reflexivity; done. }
      destruct Hnext as (st1 & Hc1 & Hr1 & Hq1 & ->).
      destruct (IH (S k) st1 Hc1 Hr1 Hrest) as (st' & e & -> & He).
      exists st', e. split; [done|].
      destruct He as [->|(i & r0 & Hi & Hp0 & Hnone & Hnb0)]; [by left|right].
      exists (S i), r0. simpl. rewrite pending_count_cons.
      assert (pending_count [row] = 1%nat) as ->
        by (unfold pending_count; by rewrite filter_cons_True).
      repeat split; try done.
      * intros [|j] r' Hj Hr'; simpl in Hr'.
        -- inversion Hr'; subst. rewrite Hp. discriminate.
        -- apply (Hnone j); [lia|done].
      * rewrite <- Hnb0. f_equal. f_equal. lia.
  - rewrite (row_step_other _ _ _ Hp Hr').
    assert (Hnr : status row ≠ "RUNNING").
    { intros Hs'. apply Hr' in Hs'. rewrite Hr in Hs'. by apply elem_of_nil in Hs'. }
    assert (Hrest : ∃ r, r ∈ rest ∧ status r = "RUNNING").
    { apply elem_of_cons in Hin as [->|Hin]; [done|by eauto]. }
    destruct (IH (S k) st Hc Hr Hrest) as (st' & e & -> & He).
    exists st', e. split; [done|].
    destruct He as [->|(i & r0 & Hi & Hp0 & Hnone & Hnb0)]; [by left|right].
    exists (S i), r0. simpl. rewrite pending_count_cons.
    assert (pending_count [row] = 0%nat) as ->
      by (unfold pending_count; by rewrite filter_cons_False).
    repeat split; try done.
    intros [|j] r' Hj Hr''; simpl in Hr''.
    + by inversion Hr''; subst.
    + apply (Hnone j); [lia|done].
Qed.

(** C10 (as amended). When the tracking table holds a RUNNING record and no
    container is live, the reconciliation pass raises before the table is
    written back, which therefore keeps its contents: no record is marked
    STOPPED.  The exception is the unbound [container] variable, unless the
    eligibility check of a PENDING record placed before every RUNNING record
    raised first, on the occupancy queried for it. *)
Theorem no_live_container_aborts w :
  (∃ r, r ∈ tracking_file w ∧ status r = "RUNNING") →
  ∃ e, (run_cycle E interactive_mode [] w).2 = Some e
       ∧ tracking_file (run_cycle E interactive_mode [] w).1 = tracking_file w
       ∧ (e = UnboundLocalError "container"
          ∨ ∃ i r, tracking_file w !! i = Some r ∧ status r = "PENDING"
                   ∧ none_running_upto (tracking_file w) i
                   ∧ nb_processes E
                       (occupancy E (w_queries w + 1
                                     + pending_count (take i (tracking_file w)))) r
                     = inl e).
Proof.
  intros Hrun. unfold run_cycle. rewrite run_cycle_body_spec, live_marked_nil.
  destruct (iterrows_unbound (tracking_file w) O (loop_entry E [] w)
              eq_refl eq_refl Hrun) as (st' & e & -> & He).
  exists e. split; [done|]. split; [done|].
  destruct He as [->|(i & r & Hi & Hp & Hnone & Hnb)]; [by left|right].
  exists i, r. repeat split; try done.
  rewrite <- Hnb. simpl. f_equal. f_equal. lia.
Qed.

End DispatcherFacts.

(** ** The statuses a pass writes *)

Lemma row_step_pending_frame E im idx row st st' res :
  status row = "PENDING" →
  row_step E im idx row st = (st', res) →
  df st' = df st ∧ container st' = container st
  ∧ running_containers_list st' = running_containers_list st.
Proof.
  intros Hp. rewrite (row_step_pending _ _ _ _ _ Hp).
  destruct (nb_processes E (occupancy E (queries st)) row) as [e|[|n]];
    intros [= <- _]; done.
Qed.

Lemma iterrows_table E im rows : ∀ k st st',
  iterrows E im k rows st = (st', inr tt) →
  (Forall (λ r, ¬ stale (running_containers_list st) r) rows ∧ df st' = df st)
  ∨ (Exists (stale (running_containers_list st)) rows
     ∧ ∃ c, container st = Some c ∧ df st' = loc_set_status c "STOPPED" (df st)).
Proof.
  induction rows as [|row rows IH]; intros k st st' Hrun.
  { left. inversion Hrun; subst. by split. }
  rewrite iterrows_cons in Hrun.
  destruct (row_step E im k row st) as [st1 [e|[]]] eqn:Hrow; [done|].
  destruct (row_step_cases row st) as [[Hs Hn]|[Hp|[Hp Hr]]].
  - rewrite (row_step_stale _ _ _ _ _ Hs Hn) in Hrow.
    destruct (container st) as [c|] eqn:Hc; [|done].
    inversion Hrow; subst st1; clear Hrow.
    right. split; [by left|]. exists c. split; [done|].
    destruct (IH _ _ _ Hrun) as [[_ ->]|(_ & c' & Hc' & ->)]; [done|].
    simpl in Hc'. rewrite Hc in Hc'. inversion Hc'; subst c'.
    apply loc_set_status_twice.
  - destruct (row_step_pending_frame _ _ _ _ _ _ _ Hp Hrow) as (Hd & Hc & Hr).
    destruct (IH _ _ _ Hrun) as [[Hall ->]|(Hex & c & Hc' & ->)];
      rewrite Hr in *; rewrite Hd.
    + left. split; [|done]. constructor; [|done].
      intros [Hs _]. rewrite Hp in Hs. discriminate.
    + right. split; [by right|]. exists c. split; [congruence|done].
  - rewrite (row_step_other _ _ _ _ _ Hp Hr) in Hrow.
    inversion Hrow; subst st1; clear Hrow.
    destruct (IH _ _ _ Hrun) as [[Hall ->]|(Hex & c & Hc' & ->)].
    + left. split; [|done]. constructor; [|done].
      intros [Hs Hn]. by apply Hn, Hr.
    + right. split; [by right|]. by exists c.
Qed.



(** ** Two passes in environments that agree where it matters *)

Section Simulation.

Variables E1 E2 : Env.
Variable interactive_mode : bool.
Variable f : event → event.

Hypothesis same_int : py_int E1 = py_int E2.
Hypothesis same_rc : ∀ i n c,
  f (EvSystem i c (shell E1 n c)) = f (EvSystem i c (shell E2 n c)).

Lemma sum_processes_same d gpus : ∀ nb,
  sum_processes E1 d gpus nb = sum_processes E2 d gpus nb.
Proof.
  induction gpus as [|g rest IH]; intros nb; simpl; [done|].
  rewrite same_int. destruct (py_int E2 g) as [k|]; [|done].
  destruct (d !! k); [apply IH|done].
Qed.

Lemma sim_emit st1 st2 e1 e2 :
  sim f st1 st2 → f e1 = f e2 → sim f (emit e1 st1) (emit e2 st2).
Proof.
  intros (Hd & Hr & Hc & Hq & Ht) He. repeat split; simpl; try done.
  rewrite !fmap_app. simpl. by rewrite Ht, He.
Qed.

Lemma sim_length st1 st2 : sim f st1 st2 → length (trace st1) = length (trace st2).
Proof.
  intros (_ & _ & _ & _ & Ht).
  by rewrite <- (length_fmap f (trace st1)), Ht, length_fmap.
Qed.

Lemma sim_queried st1 st2 :
  sim f st1 st2 → gpustat E1 (queries st1) = gpustat E2 (queries st1) →
  sim f (queried E1 st1) (queried E2 st2)
  ∧ gpus_status_dict (queried E1 st1) = gpus_status_dict (queried E2 st2).
Proof.
  intros Hsim Hg. pose proof Hsim as (Hd & Hr & Hc & Hq & Ht).
  split.
  - repeat split; simpl; try done; try congruence.
    rewrite !fmap_app. simpl. by rewrite Ht, Hq.
  - simpl. unfold occupancy. by rewrite <- Hq, Hg.
Qed.

Lemma row_step_sim idx row st1 st2 :
  sim f st1 st2 →
  (∀ n, (queries st1 ≤ n)%nat → gpustat E1 n = gpustat E2 n) →
  ∃ st1' st2' res,
    row_step E1 interactive_mode idx row st1 = (st1', res)
    ∧ row_step E2 interactive_mode idx row st2 = (st2', res)
    ∧ sim f st1' st2'.
Proof.
  intros Hsim Hg. pose proof Hsim as (Hd & Hr & Hc & Hq & Ht).
  destruct (row_step_cases row st1) as [[Hs Hn]|[Hp|[Hp Hr']]].
  - rewrite (row_step_stale E1 _ _ _ _ Hs Hn).
    rewrite Hr in Hn. rewrite (row_step_stale E2 _ _ _ _ Hs Hn), <- Hc.
    destruct (container st1) as [c|] eqn:Hc1;
      eexists _, _, _; (split; [done|split; [done|]]); [|done].
    repeat split; simpl; congruence.
  - rewrite (row_step_pending E1 _ _ _ _ Hp), (row_step_pending E2 _ _ _ _ Hp).
    destruct (sim_queried st1 st2 Hsim (Hg _ (le_n _))) as [Hsim' Hdict].
    simpl in Hdict. rewrite <- Hdict.
    unfold nb_processes. rewrite <- sum_processes_same.
    destruct (sum_processes E1 (occupancy E1 (queries st1))
                (Str.split "," (devices row)) 0) as [e|[|n]];
      eexists _, _, _; (split; [done|split; [done|]]); try done.
    apply sim_emit; [|done]. apply sim_emit; [done|].
    rewrite (sim_length _ _ Hsim'). apply same_rc.
  - rewrite (row_step_other E1 _ _ _ _ Hp Hr').
    rewrite Hr in Hr'. rewrite (row_step_other E2 _ _ _ _ Hp Hr').
    by eexists _, _, _.
Qed.

Lemma iterrows_sim rows : ∀ k st1 st2,
  sim f st1 st2 →
  (∀ n, (queries st1 ≤ n)%nat → gpustat E1 n = gpustat E2 n) →
  ∃ st1' st2' res,
    iterrows E1 interactive_mode k rows st1 = (st1', res)
    ∧ iterrows E2 interactive_mode k rows st2 = (st2', res)
    ∧ sim f st1' st2'.
Proof.
  induction rows as [|row rest IH]; intros k st1 st2 Hsim Hg.
  - by eexists _, _, _.
  - rewrite !iterrows_cons.
    destruct (row_step_sim k row st1 st2 Hsim Hg) as (st1' & st2' & res & H1 & H2 & Hs).
    rewrite H1, H2. destruct res as [e|[]]; [by eexists _, _, _|].
    apply IH; [done|]. intros n Hn. apply Hg.
    apply row_step_inv in H1 as (_ & _ & _ & Hle & _). lia.
Qed.

(** Two passes from the same world give the same table, the same exception
    and the same actions up to [f], provided the environments answer alike
    every GPU query but the one made when the pass starts. *)
Lemma run_cycle_sim containers w :
  (∀ n, (w_queries w < n)%nat → gpustat E1 n = gpustat E2 n) →
  let r1 := run_cycle E1 interactive_mode containers w in
  let r2 := run_cycle E2 interactive_mode containers w in
  tracking_file r1.1 = tracking_file r2.1
  ∧ w_queries r1.1 = w_queries r2.1
  ∧ f <$> w_trace r1.1 = f <$> w_trace r2.1
  ∧ r1.2 = r2.2.
Proof.
  intros Hg. simpl. unfold run_cycle. rewrite !run_cycle_body_spec.
  destruct (iterrows_sim (live_marked containers (tracking_file w)) O
              (loop_entry E1 containers w) (loop_entry E2 containers w))
    as (st1 & st2 & res & -> & -> & (Hd & _ & _ & Hq & Ht)).
  - by repeat split.
  - intros n Hn. apply Hg. simpl in Hn. lia.
  - by destruct res as [e|[]].
Qed.

End Simulation.

(** ** Snapshots and errors *)

Lemma world_eq (r1 r2 : world * option exn) :
  tracking_file r1.1 = tracking_file r2.1 →
  w_queries r1.1 = w_queries r2.1 →
  w_trace r1.1 = w_trace r2.1 →
  r1.2 = r2.2 →
  r1 = r2.
Proof.
  destruct r1 as [[t1 q1 tr1] e1], r2 as [[t2 q2 tr2] e2]. simpl.
  by intros -> -> -> ->.
Qed.

Lemma pending_row_is_queried E interactive_mode containers w i r st_i :
  live_marked containers (tracking_file w) !! i = Some r →
  status r = "PENDING" →
  rows_before E interactive_mode i containers w = (st_i, inr tt) →
  EvQuery (w_queries w + 1
           + pending_count (take i (live_marked containers (tracking_file w))))
    ∈ pass_events E interactive_mode containers w.
Proof.
  intros Hi Hp Hbefore.
  destruct (pass_events_split _ _ _ _ _ _ _ Hi Hbefore)
    as (before & after & st_r & res & Hrow & Hq & -> & _).
  rewrite (row_step_pending _ _ _ _ _ Hp), Hq in Hrow. rewrite <- Hq in Hrow at 1.
  apply elem_of_app. right. apply elem_of_app. left.
  destruct (nb_processes E _ r) as [e|[|k]]; inversion Hrow; subst st_r; simpl;
    rewrite <- ?app_assoc, drop_app_length, Hq; left.
Qed.

(** C8 (as amended). A reconciliation pass queries the GPU occupancy when it
    starts and again for every PENDING record it reaches, just before that
    record's eligibility check, which is decided on the answer to that later
    query.  The answer to the first query is never used: with any other
    answer to it the pass gives the same table, the same launches and the
    same outcome.  A pass that completes has made one query more than it
    found PENDING records. *)
Theorem occupancy_is_queried_per_record E interactive_mode containers w g :
  (∀ n, n ≠ w_queries w → g n = gpustat E n) →
  run_cycle (with_gpustat g E) interactive_mode containers w
    = run_cycle E interactive_mode containers w
  ∧ (∀ i r st_i,
       live_marked containers (tracking_file w) !! i = Some r →
       status r = "PENDING" →
       rows_before E interactive_mode i containers w = (st_i, inr tt) →
       let n := (w_queries w + 1
                 + pending_count (take i (live_marked containers (tracking_file w))))%nat in
       (w_queries w < n)%nat
       ∧ EvQuery n ∈ pass_events E interactive_mode containers w
       ∧ ((∃ c rc, EvSystem i c rc ∈ pass_events E interactive_mode containers w)
          ↔ nb_processes E (occupancy E n) r = inr O))
  ∧ ((run_cycle E interactive_mode containers w).2 = None →
     w_queries (run_cycle E interactive_mode containers w).1
       = (w_queries w + 1
          + pending_count (live_marked containers (tracking_file w)))%nat).
Proof.
  intros Hg. split; [|split].
  - destruct (run_cycle_sim (with_gpustat g E) E interactive_mode id eq_refl
                (λ _ _ _, eq_refl) containers w) as (Ht & Hq & Htr & He).
    { intros n Hn. apply Hg. lia. }
    rewrite !list_fmap_id in Htr. by apply world_eq.
  - intros i r st_i Hi Hp Hbefore n. split; [unfold n; lia|]. split.
    + by eapply pending_row_is_queried.
    + by apply (launch_decision E interactive_mode containers w i r st_i).
  - rewrite run_cycle_queries. unfold run_cycle. rewrite run_cycle_body_spec.
    destruct (iterrows E interactive_mode 0 (live_marked containers (tracking_file w))
                (loop_entry E containers w)) as [st [e|[]]] eqn:Hrun; [discriminate|].
    intros _. apply iterrows_inv in Hrun as (_ & _ & _ & _ & Hq & _).
    simpl in *. rewrite (Hq eq_refl). lia.
Qed.

(** C9 (as amended). The exit status of a launch command plays no part in a
    reconciliation pass: whatever the launches return, the same records are
    evaluated and launched, and the same table is written.  An exception
    raised by the eligibility check of a record (the text of a device that is
    not an integer, a device index absent from the occupancy mapping) does
    abort the pass: nothing is done after the query made for that record, and
    the table is not written back. *)
Theorem launch_status_ignored_eligibility_error_aborts E interactive_mode containers w :
  (∀ sh,
     let r1 := run_cycle (with_shell sh E) interactive_mode containers w in
     let r2 := run_cycle E interactive_mode containers w in
     tracking_file r1.1 = tracking_file r2.1
     ∧ w_queries r1.1 = w_queries r2.1
     ∧ forget_rc <$> w_trace r1.1 = forget_rc <$> w_trace r2.1
     ∧ r1.2 = r2.2)
  ∧ (∀ i r st_i e,
       live_marked containers (tracking_file w) !! i = Some r →
       status r = "PENDING" →
       rows_before E interactive_mode i containers w = (st_i, inr tt) →
       nb_processes E (occupancy E (queries st_i)) r = inl e →
       run_cycle E interactive_mode containers w
         = (mkWorld (tracking_file w) (S (queries st_i))
                    (trace st_i ++ [EvQuery (queries st_i)]), Some e)).
Proof.
  split.
  - intros sh.
    apply (run_cycle_sim (with_shell sh E) E interactive_mode forget_rc eq_refl).
    + done.
    + done.
  - intros i r st_i e Hi Hp Hbefore Hnb. unfold rows_before in Hbefore.
    unfold run_cycle. rewrite run_cycle_body_spec.
    set (rows := live_marked containers (tracking_file w)) in *.
    assert (Hlen : length (take i rows) = i).
    { apply length_take_le. apply lookup_lt_Some in Hi. lia. }
    assert (Hrun : iterrows E interactive_mode 0 rows (loop_entry E containers w) =
              (queried E st_i, inl e)).
    { transitivity (iterrows E interactive_mode 0 (take i rows ++ r :: drop (S i) rows)
                      (loop_entry E containers w)); [by rewrite take_drop_middle|].
      rewrite iterrows_app, Hbefore, Hlen, iterrows_cons.
      by rewrite (row_step_pending _ _ _ _ _ Hp), Hnb. }
    by rewrite Hrun.
Qed.

(** ** Generation and the stored templates *)











(** ** Names of the generated records *)

(** C3 (as amended). Every record a generation pass produces is PENDING and
    its launch command names the container after the benchmark, the system,
    the capability, the batch size, the number of epochs and the learning
    rate.  The three parameters are required: with the axes batch-size
    [32, 64] and epochs [1] alone, generation raises KeyError for the learning
    rate and writes no record; with a learning-rate axis of one value added,
    it writes exactly two records, both PENDING, whose containers bear
    different names. *)
Theorem generated_records_scenario_A :
  (∀ G s sc b bc dc wc im rows,
     experiments_of G s sc b bc dc wc im = inr rows →
     Forall (λ r, status r = "PENDING" ∧ generated_row G b s bc r) rows)
  ∧ (let r := generate_all_benchmarks plain_env false (scenario axes_A one_benchmark) [] in
     tracking r.1 = [] ∧ r.2 = inl (KeyError (StrKey "learning-rate")))
  ∧ (let r := generate_all_benchmarks plain_env false
                (scenario axes_A_lr one_benchmark) [] in
     r.2 = inr tt
     ∧ status <$> tracking r.1 = ["PENDING"; "PENDING"]
     ∧ cmd <$> tracking r.1 =
         [docker_run "d" "bert-dgx-fp16-B32xE1xLR0.001" EmptyString
            "-v /mnt/imagenet:/data " "0" "/workspace" "fp16" "bert" "python train.py";
          docker_run "d" "bert-dgx-fp16-B64xE1xLR0.001" EmptyString
            "-v /mnt/imagenet:/data " "0" "/workspace" "fp16" "bert" "python train.py"]).
Proof.
  split; [|split].
  - intros G s sc b bc dc wc im rows H.
    apply experiments_of_generated in H.
    eapply Forall_impl; [exact H|]. intros r Hr. split; [|done].
    by destruct Hr as (? & ? & ? & ? & ? & _ & _ & _ & _ & ? & ? & ? & ? & ? & ? & ->).
  - vm_compute. by split.
  - vm_compute. by repeat split.
Qed.

(** C4 (the code departs from it). For every record [generate_docker]
    writes, the name the launch command gives the container is not the
    record's docker_name: it is docker_name followed by the parameters.  A
    reconciliation pass that finds that container live therefore leaves the
    record as it is. *)
Theorem container_name_is_not_docker_name G s sc b bc dc wc im rows :
  experiments_of G s sc b bc dc wc im = inr rows →
  Forall (λ r,
    ∃ capability batch_size epochs learning_rate run_mode wandb mounts devs workdir bcmd,
      let run_name :=
        run_name_of G b s capability batch_size epochs learning_rate in
      cmd r = docker_run run_mode run_name wandb mounts devs workdir capability b bcmd
      ∧ docker_name r = b +:+ "-" +:+ s +:+ "-" +:+ capability
      ∧ run_name = docker_name r +:+ "-B" +:+ py_str G batch_size
                   +:+ "xE" +:+ py_str G epochs +:+ "xLR" +:+ py_str G learning_rate
      ∧ run_name ≠ docker_name r
      ∧ ∀ E im' w i, tracking_file w !! i = Some r →
          tracking_file (run_cycle E im' [run_name] w).1 !! i = Some r) rows.
Proof.
  intros H. apply experiments_of_generated in H.
  eapply Forall_impl; [exact H|]. intros r Hr.
  destruct (generated_row_names _ _ _ _ _ Hr) as (c' & bs' & ep' & lr' & Hd' & Hne').
  destruct Hr as (kw & capability & bs & ep & lr & _ & _ & _ & _
                  & rm & wb & mt & dv & wd & bcmd & ->).
  exists capability, bs, ep, lr, rm, wb, mt, dv, wd, bcmd. simpl.
  assert (Hne : run_name_of G b s capability bs ep lr
                ≠ b +:+ "-" +:+ s +:+ "-" +:+ capability).
  { rewrite run_name_extends_docker_name. apply string_app_neq. discriminate. }
  split; [done|]. split; [done|].
  split; [apply run_name_extends_docker_name|]. split; [done|].
  intros E im' w i Hi.
  destruct (run_cycle_row E im' [run_name_of G b s capability bs ep lr] w i _ Hi)
    as (r' & Hr' & st & -> & Hs).
  rewrite Hr'. destruct Hs as [->|[Hin _]]; [done|].
  apply list_elem_of_singleton in Hin. simpl in Hin. by symmetry in Hin.
Qed.

(** ** Concrete scenarios of the dispatcher *)



(** C2, at the failing input: records A and B are RUNNING and only B's
    container is live.  A, whose container is gone, is left RUNNING. *)
Lemma stale_record_is_not_stopped_witness :
  let w := mkWorld [job "0" "A" "RUNNING"; job "1" "B" "RUNNING"] 0 [] in
  tracking_file (run_cycle (demo_env (two_gpus 0 0)) false ["B"] w).1 !! 0%nat
    = Some (job "0" "A" "RUNNING").
Proof.
  intros w.
  apply (stale_record_is_not_stopped (demo_env (two_gpus 0 0)) false ["B"] w 0
           (job "0" "A" "RUNNING") eq_refl eq_refl).
  intros Hin. apply list_elem_of_singleton in Hin. discriminate.
Defined.

(** At the same input it is B, whose container is live, that the pass marks
    STOPPED: the marking is keyed on the last container listed, not on the
    row under examination. *)
Example stale_marking_hits_the_live_record :
  run_cycle (demo_env (two_gpus 0 0)) false ["B"]
    (mkWorld [job "0" "A" "RUNNING"; job "1" "B" "RUNNING"] 0 [])
  = (mkWorld [job "0" "A" "RUNNING"; job "1" "B" "STOPPED"] 1 [EvQuery 0], None).
Proof. vm_compute. reflexivity. Qed.



(** C8, counterexample: two PENDING records share device 0, idle when the pass
    starts and busy once the first record has been launched.  On the
    occupancy of the start of the pass the second record would be launched;
    the pass queries again (query 2) and does not launch it. *)
Lemma second_record_judged_on_fresh_occupancy :
  let E := busy_after_first_launch in
  let w := mkWorld [job "0" "A" "PENDING"; job "0" "B" "PENDING"] 0 [] in
  nb_processes E (occupancy E 0) (job "0" "B" "PENDING") = inr O
  ∧ nb_processes E (occupancy E 2) (job "0" "B" "PENDING") = inr 1%nat
  ∧ pass_events E false [] w
    = [EvQuery 0; EvQuery 1; EvSystem 0 "docker run -d --rm --name=A" 0;
       EvSleep 15; EvQuery 2].
Proof. vm_compute. repeat split; reflexivity. Qed.

Lemma occupancy_is_queried_per_record_witness :
  let E := busy_after_first_launch in
  let w := mkWorld [job "0" "A" "PENDING"; job "0" "B" "PENDING"] 0 [] in
  let g := λ n, match n with O => two_gpus 3 3 | S _ => gpustat E n end in
  run_cycle (with_gpustat g E) false [] w = run_cycle E false [] w.
Proof.
  intros E w g.
  refine (proj1 (occupancy_is_queried_per_record E false [] w g _)).
  intros [|n] Hn; [contradiction|reflexivity].
Defined.

(** C9, counterexample: the second record is assigned device 5, which the
    occupancy mapping does not have.  The pass stops there with a KeyError:
    the third record, whose device is idle, is neither queried for nor
    launched, and the table is not written back (the first record, which the
    pass had marked RUNNING in memory, is still PENDING in the file). *)
Lemma absent_device_aborts_the_pass :
  let t := [job "1" "A" "PENDING"; job "5" "B" "PENDING"; job "0" "C" "PENDING"] in
  run_cycle (demo_env (two_gpus 0 0)) false ["A"] (mkWorld t 0 [])
  = (mkWorld t 2 [EvQuery 0; EvQuery 1], Some (KeyError (IntKey 5))).
Proof. vm_compute. reflexivity. Qed.

Lemma launch_status_ignored_eligibility_error_aborts_witness :
  let E := demo_env (two_gpus 0 0) in
  let t := [job "1" "A" "PENDING"; job "5" "B" "PENDING"; job "0" "C" "PENDING"] in
  run_cycle E false ["A"] (mkWorld t 0 [])
  = (mkWorld t 2 [EvQuery 0; EvQuery 1], Some (KeyError (IntKey 5))).
Proof.
  intros E t.
  exact (proj2 (launch_status_ignored_eligibility_error_aborts E false ["A"]
                  (mkWorld t 0 []))
           1%nat (job "5" "B" "PENDING") (loop_entry E ["A"] (mkWorld t 0 []))
           (KeyError (IntKey 5)) eq_refl eq_refl eq_refl eq_refl).
Defined.

(** A launch that fails (exit status 125) changes nothing of the pass. *)
Example failed_launch_does_not_stop_the_pass :
  let E := with_shell (λ _ _, 125) (demo_env (two_gpus 0 0)) in
  run_cycle E false [] (mkWorld [job "0" "A" "PENDING"; job "1" "B" "PENDING"] 0 [])
  = (mkWorld [job "0" "A" "PENDING"; job "1" "B" "PENDING"] 3
       [EvQuery 0; EvQuery 1; EvSystem 0 "docker run -d --rm --name=A" 125;
        EvSleep 15; EvQuery 2; EvSystem 1 "docker run -d --rm --name=B" 125;
        EvSleep 15], None).
Proof. vm_compute. reflexivity. Qed.

(** C10, counterexample: no container is live and the table holds a RUNNING
    record, but the PENDING record before it is assigned a device the
    occupancy mapping does not have.  The pass fails with KeyError, not with
    the unbound variable. *)
Lemma key_error_comes_before_unbound_variable :
  let t := [job "5" "A" "PENDING"; job "0" "B" "RUNNING"] in
  run_cycle (demo_env (two_gpus 0 0)) false [] (mkWorld t 0 [])
  = (mkWorld t 2 [EvQuery 0; EvQuery 1], Some (KeyError (IntKey 5))).
Proof. vm_compute. reflexivity. Qed.

Lemma no_live_container_aborts_witness :
  let E := demo_env (two_gpus 0 0) in
  let w := mkWorld [job "0" "B" "RUNNING"] 0 [] in
  ∃ e, (run_cycle E false [] w).2 = Some e
       ∧ tracking_file (run_cycle E false [] w).1 = tracking_file w
       ∧ (e = UnboundLocalError "container"
          ∨ ∃ i r, tracking_file w !! i = Some r ∧ status r = "PENDING"
                   ∧ none_running_upto (tracking_file w) i
                   ∧ nb_processes E
                       (occupancy E (w_queries w + 1
                                     + pending_count (take i (tracking_file w)))) r
                     = inl e).
Proof.
  intros E w. apply (no_live_container_aborts E false w).
  exists (job "0" "B" "RUNNING"). split; [left|reflexivity].
Defined.

(** With no live container and a RUNNING record alone, the exception is the
    unbound variable. *)
Example unbound_container_variable :
  run_cycle (demo_env (two_gpus 0 0)) false [] (mkWorld [job "0" "B" "RUNNING"] 0 [])
  = (mkWorld [job "0" "B" "RUNNING"] 1 [EvQuery 0],
     Some (UnboundLocalError "container")).
Proof. vm_compute. reflexivity. Qed.

(** ** Concrete scenarios of generation *)

Lemma product_dict_expansion_witness :
  let axes := [("batch-size", [YInt 32; YInt 64]); ("epochs", [YInt 1])] in
  ∃ assignments,
    product_dict (kwargs_of axes) = inr assignments
    ∧ assignments = [[("batch-size", YInt 32); ("epochs", YInt 1)];
                     [("batch-size", YInt 64); ("epochs", YInt 1)]]
    ∧ length assignments = 2%nat
    ∧ NoDup assignments.
Proof.
  intros axes.
  assert (Hkeys : NoDup axes.*1).
  { simpl. apply NoDup_cons. split; [not_among|]. apply NoDup_singleton. }
  destruct (product_dict_expansion axes Hkeys)
    as (assignments & Hrun & Heq & Hlen & _ & Hnd & _).
  exists assignments. split; [exact Hrun|]. split; [exact Heq|].
  split; [exact Hlen|]. apply Hnd. simpl.
  repeat constructor; not_among.
Defined.

(** C3, counterexample: scenario A as the claim words it.  The benchmark has
    no learning rate, [run_name] cannot be built, and no record is written. *)
Lemma scenario_A_writes_no_record :
  let r := generate_all_benchmarks plain_env false (scenario axes_A one_benchmark) [] in
  tracking r.1 = [] ∧ r.2 = inl (KeyError (StrKey "learning-rate")).
Proof. vm_compute. by split. Qed.

Lemma generated_records_scenario_A_witness :
  let rows := [bert_row "bert-dgx-fp16-B32xE1xLR0.001"] in
  experiments_of plain_env "dgx" dgx "bert" (bert_resolved 32)
    (YMap [("imagenet", YStr "/mnt/imagenet")]) (YMap [("active", YBool false)]) false
  = inr rows
  ∧ Forall (λ r, status r = "PENDING"
                 ∧ generated_row plain_env "bert" "dgx" (bert_resolved 32) r) rows.
Proof.
  intros rows.
  assert (H : experiments_of plain_env "dgx" dgx "bert" (bert_resolved 32)
                (YMap [("imagenet", YStr "/mnt/imagenet")])
                (YMap [("active", YBool false)]) false = inr rows)
    by (vm_compute; reflexivity).
  split; [exact H|].
  exact (proj1 generated_records_scenario_A _ _ _ _ _ _ _ _ _ H).
Defined.

(** With the learning rate, the two records of scenario A have one and the
    same docker_name. *)
Example scenario_A_docker_names :
  docker_name <$> tracking (generate_all_benchmarks plain_env false
                              (scenario axes_A_lr one_benchmark) []).1
  = ["bert-dgx-fp16"; "bert-dgx-fp16"].
Proof. vm_compute. reflexivity. Qed.

(** C4, at the failing input: the record generated for batch size 32. *)
Lemma container_name_is_not_docker_name_witness :
  let G := plain_env in
  let rows := [bert_row "bert-dgx-fp16-B32xE1xLR0.001"] in
  experiments_of G "dgx" dgx "bert" (bert_resolved 32)
    (YMap [("imagenet", YStr "/mnt/imagenet")]) (YMap [("active", YBool false)]) false
  = inr rows
  ∧ Forall (λ r,
      ∃ capability batch_size epochs learning_rate run_mode wandb mounts devs workdir bcmd,
        let run_name :=
          run_name_of G "bert" "dgx" capability batch_size epochs learning_rate in
        cmd r = docker_run run_mode run_name wandb mounts devs workdir capability
                  "bert" bcmd
        ∧ docker_name r = "bert" +:+ "-" +:+ "dgx" +:+ "-" +:+ capability
        ∧ run_name = docker_name r +:+ "-B" +:+ py_str G batch_size
                     +:+ "xE" +:+ py_str G epochs +:+ "xLR" +:+ py_str G learning_rate
        ∧ run_name ≠ docker_name r
        ∧ ∀ E im' w i, tracking_file w !! i = Some r →
            tracking_file (run_cycle E im' [run_name] w).1 !! i = Some r) rows.
Proof.
  intros G rows.
  assert (H : experiments_of G "dgx" dgx "bert" (bert_resolved 32)
                (YMap [("imagenet", YStr "/mnt/imagenet")])
                (YMap [("active", YBool false)]) false = inr rows)
    by (vm_compute; reflexivity).
  split; [exact H|].
  exact (container_name_is_not_docker_name _ _ _ _ _ _ _ _ _ H).
Defined.

(** The pass that follows: the container of the first record is live and the
    GPUs report no process.  No record is marked RUNNING, and both are
    launched, the first one for the second time. *)
Example live_generated_container_is_not_recognised :
  let rows := [bert_row "bert-dgx-fp16-B32xE1xLR0.001";
               bert_row "bert-dgx-fp16-B64xE1xLR0.001"] in
  let r := run_cycle (demo_env (two_gpus 0 0)) false
             ["bert-dgx-fp16-B32xE1xLR0.001"] (mkWorld rows 0 []) in
  tracking (generate_all_benchmarks plain_env false
              (scenario axes_A_lr one_benchmark) []).1 = rows
  ∧ status <$> tracking_file r.1 = ["PENDING"; "PENDING"]
  ∧ w_trace r.1 = [EvQuery 0; EvQuery 1; EvSystem 0 (cmd (bert_row "bert-dgx-fp16-B32xE1xLR0.001")) 0;
                   EvSleep 15; EvQuery 2;
                   EvSystem 1 (cmd (bert_row "bert-dgx-fp16-B64xE1xLR0.001")) 0;
                   EvSleep 15].
Proof. vm_compute. by repeat split. Qed.



(** * Further properties *)

(** ** The occupancy dictionary and the eligibility sum *)

Lemma status_dict_snoc gpus g :
  status_dict (gpus ++ [g]) = <[index g := length (processes g)]> (status_dict gpus).
Proof. unfold status_dict. by rewrite fold_left_app. Qed.

(** X1. The occupancy dictionary gives, for a device index, the number of
    processes of the last GPU entry that bears it, and nothing for an index
    no entry bears. *)
Theorem status_dict_lookup gpus k :
  status_dict gpus !! k
    = (λ g, length (processes g)) <$> last (filter (λ g, index g = k) gpus).
Proof.
  induction gpus as [|g gpus IH] using rev_ind; [done|].
  rewrite status_dict_snoc, filter_app.
  destruct (decide (index g = k)) as [Hk|Hk].
  - rewrite filter_cons_True, filter_nil by done.
    rewrite last_snoc. subst k. by rewrite lookup_insert_eq.
  - rewrite filter_cons_False, filter_nil, app_nil_r by done.
    by rewrite lookup_insert_ne.
Qed.

Lemma sum_processes_zero E d gpus : ∀ nb,
  sum_processes E d gpus nb = inr O ↔ nb = O ∧ Forall (device_idle E d) gpus.
Proof.
  induction gpus as [|g gpus IH]; intros nb; simpl.
  - split; [by intros [= ->]|by intros [-> _]].
  - split.
    + destruct (py_int E g) as [k|] eqn:Hk; [|done].
      destruct (d !! k) as [n|] eqn:Hn; [|done].
      intros [Hz Hrest]%IH. assert (nb = O ∧ n = O) as [-> ->] by lia.
      split; [done|]. constructor; [by exists k|done].
    + intros [-> Hall]. inversion Hall as [|g' l' (k & Hk & Hn) Hrest]; subst.
      rewrite Hk, Hn. by apply IH.
Qed.

Lemma sum_processes_app E d pre counts :
  Forall2 (device_count E d) pre counts →
  ∀ rest nb,
    sum_processes E d (pre ++ rest) nb
    = sum_processes E d rest (nb + sum_list counts).
Proof.
  induction 1 as [|g c pre counts (k & Hk & Hc) _ IH]; intros rest nb; simpl.
  - f_equal. lia.
  - rewrite Hk, Hc, IH. f_equal. lia.
Qed.

(** X2. The process count of a record goes through the pieces of its devices
    text, split at the commas, in order.  When every piece reads as a device
    index the occupancy has, the count is the sum of the processes of these
    devices.  At the first piece that does not read as an integer the count
    raises ValueError, with that piece, and at the first piece that reads as
    an index the occupancy lacks it raises KeyError, with that index.  So the
    count is zero exactly when every piece reads as a device index to which
    the occupancy gives zero processes. *)
Theorem nb_processes_sum_or_raise E d row :
  let pieces := Str.split "," (devices row) in
  (∀ counts, Forall2 (device_count E d) pieces counts →
     nb_processes E d row = inr (sum_list counts))
  ∧ (∀ pre g post counts,
       pieces = pre ++ g :: post →
       Forall2 (device_count E d) pre counts →
       (py_int E g = None → nb_processes E d row = inl (ValueError g))
       ∧ (∀ k, py_int E g = Some k → d !! k = None →
            nb_processes E d row = inl (KeyError (IntKey k))))
  ∧ (nb_processes E d row = inr O ↔ Forall (device_idle E d) pieces).
Proof.
  intros pieces. unfold nb_processes. fold pieces. split; [|split].
  - intros counts Hall.
    rewrite <- (app_nil_r pieces), (sum_processes_app _ _ _ _ Hall). done.
  - intros pre g post counts -> Hpre.
    rewrite (sum_processes_app _ _ _ _ Hpre). simpl. split.
    + by intros ->.
    + by intros k -> ->.
  - rewrite sum_processes_zero. split; [by intros [_ ?]|by intros ?].
Qed.

(** ** The table a completed pass writes *)

(** X3. The table a pass that completes writes back is the table it read in
    which every row named like a live container is RUNNING, unless one of
    the rows is then RUNNING without a live container of its name: in that
    case the rows named like the last container listed are STOPPED, and no
    other row. *)
Theorem completed_pass_table E im containers w w' :
  run_cycle E im containers w = (w', None) →
  let marked := live_marked containers (tracking_file w) in
  (Forall (λ r, ¬ stale containers r) marked ∧ tracking_file w' = marked)
  ∨ (Exists (stale containers) marked
     ∧ ∃ c, last containers = Some c
            ∧ tracking_file w' = loc_set_status c "STOPPED" marked).
Proof.
  unfold run_cycle. rewrite run_cycle_body_spec.
  destruct (iterrows E im 0 (live_marked containers (tracking_file w))
              (loop_entry E containers w)) as [st [e|[]]] eqn:Hrun; [done|].
  intros [= <-]. simpl.
  by destruct (iterrows_table _ _ _ _ _ _ Hrun) as [[H1 H2]|(H1 & c & H2 & H3)];
    [left|right; split; [|exists c]].
Qed.

(** ** The run loop *)

Lemma runner_row E im docker_ps fuel : ∀ cycle w i r,
  tracking_file w !! i = Some r →
  ∃ s, tracking_file (runner E im docker_ps fuel cycle w).1 !! i
         = Some (with_status s r)
       ∧ (s = status r
          ∨ ((∃ c, (cycle ≤ c < cycle + fuel)%nat ∧ docker_name r ∈ docker_ps c)
             ∧ (s = "RUNNING" ∨ s = "STOPPED"))).
Proof.
  induction fuel as [|fuel IH]; intros cycle w i r Hi; simpl.
  { exists (status r). rewrite with_status_same. by split; [|left]. }
  destruct (run_cycle_row E im (docker_ps cycle) w i r Hi) as (r1 & Hr1 & Hev).
  destruct (run_cycle E im (docker_ps cycle) w) as [w1 [e|]] eqn:Hrun; simpl in *.
  - destruct Hev as (s & -> & Hs). exists s. split; [done|].
    destruct Hs as [->|[Hin Hs]]; [by left|right]. split; [|done].
    exists cycle. split; [lia|done].
  - destruct (IH (S cycle) (pause w1) i r1 Hr1) as (s2 & Hr2 & Hs2).
    destruct Hev as (s1 & -> & Hs1). exists s2. split; [done|].
    simpl in Hs2. destruct Hs2 as [->|[(c & Hc & Hin) Hs]].
    + destruct Hs1 as [->|[Hin Hs]]; [by left|right]. split; [|done].
      exists cycle. split; [lia|done].
    + right. split; [|done]. exists c. split; [lia|done].
Qed.

(** X4. However many passes the run loop makes, it changes nothing of a
    record but its status, and only to RUNNING or STOPPED, and only if, during
    one of the passes, a container bearing the record's docker_name is
    listed.  A record whose name is never listed, such as one whose
    container has ended, is kept as it is for ever. *)
Theorem runner_changes_only_named_records E im docker_ps fuel cycle w i r :
  tracking_file w !! i = Some r →
  (∃ s, tracking_file (runner E im docker_ps fuel cycle w).1 !! i
          = Some (with_status s r)
        ∧ (s = status r ∨ s = "RUNNING" ∨ s = "STOPPED"))
  ∧ ((∀ c, (cycle ≤ c < cycle + fuel)%nat → docker_name r ∉ docker_ps c) →
     tracking_file (runner E im docker_ps fuel cycle w).1 !! i = Some r).
Proof.
  intros Hi. destruct (runner_row E im docker_ps fuel cycle w i r Hi) as (s & Hr & Hs).
  split.
  - exists s. split; [done|]. destruct Hs as [->|[_ Hs]]; [by left|by right].
  - intros Hnever. rewrite Hr. destruct Hs as [->|[(c & Hc & Hin) _]].
    + by rewrite with_status_same.
    + by destruct (Hnever c Hc).
Qed.

(** ** The settle delay *)

Lemma row_step_block E im idx row st st' res :
  row_step E im idx row st = (st', res) →
  ∃ evs, trace st' = trace st ++ evs ∧ row_block evs.
Proof.
  intros Hrow.
  destruct (row_step_cases row st) as [[Hs Hn]|[Hp|[Hp Hr]]].
  - rewrite (row_step_stale _ _ _ _ _ Hs Hn) in Hrow.
    exists []. split; [|by left].
    destruct (container st); inversion Hrow; subst; simpl; by rewrite app_nil_r.
  - rewrite (row_step_pending _ _ _ _ _ Hp) in Hrow.
    destruct (nb_processes E (occupancy E (queries st)) row) as [e|[|n]];
      inversion Hrow; subst; clear Hrow; simpl.
    + exists [EvQuery (queries st)]. split; [done|]. right; left. by eexists.
    + eexists [EvQuery (queries st); EvSystem idx _ _; EvSleep 15].
      split; [by rewrite <- !app_assoc|]. right; right. by eexists _, _, _, _.
    + exists [EvQuery (queries st)]. split; [done|]. right; left. by eexists.
  - rewrite (row_step_other _ _ _ _ _ Hp Hr) in Hrow. inversion Hrow; subst.
    exists []. split; [by rewrite app_nil_r|by left].
Qed.

Lemma iterrows_blocks E im rows : ∀ k st st' res,
  iterrows E im k rows st = (st', res) →
  ∃ blocks, trace st' = trace st ++ concat blocks ∧ Forall row_block blocks.
Proof.
  induction rows as [|row rows IH]; intros k st st' res Hrun.
  { inversion Hrun; subst. exists []. simpl. by rewrite app_nil_r. }
  rewrite iterrows_cons in Hrun.
  destruct (row_step E im k row st) as [st1 [e|[]]] eqn:Hrow;
    destruct (row_step_block _ _ _ _ _ _ _ Hrow) as (evs & Ht & Hb).
  - inversion Hrun; subst. exists [evs]. simpl. rewrite app_nil_r.
    split; [done|by constructor].
  - destruct (IH _ _ _ _ Hrun) as (blocks & Ht' & Hbs).
    exists (evs :: blocks). simpl. rewrite Ht', Ht, <- app_assoc.
    split; [done|by constructor].
Qed.

Lemma blocks_around_launch blocks : Forall row_block blocks →
  ∀ pre post i c rc,
    concat blocks = pre ++ EvSystem i c rc :: post →
    (∃ pre' n, pre = pre' ++ [EvQuery n]) ∧ (∃ post', post = EvSleep 15 :: post').
Proof.
  induction 1 as [|b blocks Hb Hbs IH]; intros pre post i c rc Heq; simpl in Heq.
  { by destruct pre. }
  destruct Hb as [->|[(n & ->)|(n & j & c' & rc' & ->)]]; simpl in Heq.
  - by eapply IH.
  - destruct pre as [|e pre]; simpl in Heq; [done|].
    injection Heq as <- Heq.
    destruct (IH _ _ _ _ _ Heq) as [(pre' & n' & ->) Hpost].
    split; [|done]. by exists (EvQuery n :: pre'), n'.
  - destruct pre as [|e0 [|e1 [|e2 pre]]]; simpl in Heq; try done.
    + injection Heq as <- _ _ _ <-. split; [by exists [], n|by eexists].
    + injection Heq as <- <- <- Heq.
      destruct (IH _ _ _ _ _ Heq) as [(pre' & n' & ->) Hpost].
      split; [|done]. by eexists (_ :: _ :: _ :: pre'), n'.
Qed.

(** X5. In the actions of a pass, whether it completes or raises, every
    launch comes right after a query of the GPU occupancy and is followed at
    once by the settle delay of 15 seconds. *)
Theorem launch_between_query_and_delay E im containers w pre i c rc post :
  pass_events E im containers w = pre ++ EvSystem i c rc :: post →
  (∃ pre' n, pre = pre' ++ [EvQuery n]) ∧ (∃ post', post = EvSleep 15 :: post').
Proof.
  unfold pass_events. rewrite run_cycle_trace, run_cycle_body_spec.
  destruct (iterrows E im 0 (live_marked containers (tracking_file w))
              (loop_entry E containers w)) as [st res] eqn:Hrun.
  destruct (iterrows_blocks _ _ _ _ _ _ _ Hrun) as (blocks & Ht & Hbs).
  simpl in *. rewrite Ht, <- app_assoc, drop_app_length. simpl.
  intros Heq.
  apply (blocks_around_launch ([EvQuery (w_queries w)] :: blocks)) with i c rc;
    [|done].
  constructor; [|done]. right; left. by eexists.
Qed.

(** ** Edge cases of the parameter expander *)

Lemma cartesian_empty_axis {A} (pools : list (list A)) :
  [] ∈ pools → cartesian pools = [].
Proof.
  intros Hin. apply length_zero_iff_nil. rewrite length_cartesian.
  induction pools as [|p pools IH]; [by apply elem_of_nil in Hin|].
  simpl. apply elem_of_cons in Hin as [<-|Hin]; [done|].
  rewrite IH by done. lia.
Qed.

(** X6. If one parameter has an empty list of candidate values, the
    expansion has no assignment at all, whatever the other parameters. *)
Theorem product_dict_empty_axis (axes : list (string * list yaml)) :
  [] ∈ axes.*2 → product_dict (kwargs_of axes) = inr [].
Proof.
  intros Hin. unfold product_dict.
  rewrite kwargs_values, iter_all_lists. simpl.
  by rewrite product_cartesian, cartesian_empty_axis.
Qed.

Lemma py_iter_error v e : py_iter v = inl e → e = TypeError "not iterable".
Proof. destruct v; simpl; by intros [= <-]. Qed.

Lemma iter_all_not_iterable vals v :
  v ∈ vals → not_iterable v → iter_all vals = inl (TypeError "not iterable").
Proof.
  intros Hin Hv. induction vals as [|v0 vals IH]; [by apply elem_of_nil in Hin|].
  cbn [iter_all]. unfold mbind, exn_bind.
  destruct (py_iter v0) as [e|pool] eqn:Hv0.
  - by rewrite (py_iter_error _ _ Hv0).
  - apply elem_of_cons in Hin as [->|Hin]; [by destruct v0|].
    by rewrite IH.
Qed.

(** X7. A parameter whose value is a scalar that cannot be iterated (null, a
    boolean, an integer, a float) makes the expansion raise TypeError: a
    single value has to be written as a list of one element. *)
Theorem product_dict_scalar_value (kwargs : list (string * yaml)) k v :
  (k, v) ∈ kwargs → not_iterable v →
  product_dict kwargs = inl (TypeError "not iterable").
Proof.
  intros Hin Hv. unfold product_dict.
  rewrite (iter_all_not_iterable _ v); [done| |done].
  unfold Dict.values. apply list_elem_of_fmap. by exists (k, v).
Qed.

(** ** Generation and the rows already in the tracking file *)

Section GenerationInvariants.

Variable G : GenEnv.
Variable im : bool.

Lemma frames_ret {A} (a : A) : frames (mret a).
Proof. by intros f st. Qed.

Lemma frames_lift {A} (r : exn + A) : frames (lift r).
Proof. by intros f st. Qed.

Lemma frames_bind {A B} (m : M gen_state A) (k : A → M gen_state B) :
  frames m → (∀ a, frames (k a)) → frames (m ≫= k).
Proof.
  intros Hm Hk f st. unfold mbind, M_bind. rewrite Hm.
  destruct (m st) as [st1 [e|a]]; simpl; [done|]. apply Hk.
Qed.

Lemma frames_generate_docker s sc b bc dc wc :
  frames (generate_docker G im s sc b bc dc wc).
Proof.
  apply frames_bind; [apply frames_lift|]. intros rows f st.
  unfold modify, prepend. simpl. by rewrite app_assoc.
Qed.

Lemma frames_build_docker dconf tag : frames (build_docker G dconf tag).
Proof.
  apply frames_bind; [apply frames_lift|]. intros path.
  apply frames_bind; [apply frames_lift|]. by intros dockerfile f st.
Qed.

Lemma frames_params_loop config s sc b this l :
  frames (params_loop G im config s sc b this l).
Proof.
  induction l as [|ps l IH]; [apply frames_ret|]. cbn [params_loop].
  apply frames_bind; [apply frames_lift|]. intros current.
  apply frames_bind; [apply frames_lift|]. intros dc.
  apply frames_bind; [apply frames_lift|]. intros wc.
  apply frames_bind; [apply frames_generate_docker|]. by intros _.
Qed.

Lemma frames_benchmark_step config s sc b bc :
  frames (benchmark_step G im config s sc b bc).
Proof.
  unfold benchmark_step.
  apply frames_bind; [apply frames_lift|]. intros name.
  apply frames_bind; [by intros f st|]. intros templates_ref.
  apply frames_bind; [apply frames_lift|]. intros tmpl.
  apply frames_bind; [apply frames_lift|]. intros merged.
  apply frames_bind; [by intros f st|]. intros _.
  apply frames_bind; [apply frames_lift|]. intros active.
  destruct (truthy active); [|apply frames_ret].
  apply frames_bind; [apply frames_lift|]. intros docker.
  apply frames_bind; [apply frames_build_docker|]. intros _.
  apply frames_bind; [apply frames_lift|]. intros params.
  apply frames_bind; [apply frames_lift|]. intros kw.
  apply frames_bind; [apply frames_lift|]. intros bps.
  apply frames_params_loop.
Qed.

Lemma frames_benchmarks_loop config s sc l :
  frames (benchmarks_loop G im config s sc l).
Proof.
  induction l as [|[b bc] l IH]; [apply frames_ret|]. cbn [benchmarks_loop].
  apply frames_bind; [apply frames_benchmark_step|]. by intros _.
Qed.

Lemma frames_systems_loop config l : frames (systems_loop G im config l).
Proof.
  induction l as [|[s sc] l IH]; [apply frames_ret|]. cbn [systems_loop].
  apply frames_bind; [apply frames_lift|]. intros active.
  apply frames_bind; [|by intros _].
  destruct (negb (truthy active)); [apply frames_ret|].
  apply frames_bind; [apply frames_lift|]. intros bv.
  apply frames_bind; [apply frames_lift|]. intros bs.
  apply frames_benchmarks_loop.
Qed.

Lemma generate_all_benchmarks_frame config file :
  generate_all_benchmarks G im config file
  = (prepend file (generate_all_benchmarks G im config []).1,
     (generate_all_benchmarks G im config []).2).
Proof.
  unfold generate_all_benchmarks.
  destruct (getitem config "benchmarks-template") as [e|t].
  { unfold prepend. simpl. by rewrite app_nil_r. }
  assert (Hf : frames (systems_v ← lift (getitem config "systems");
                       systems ← lift (items systems_v);
                       systems_loop G im config systems)).
  { apply frames_bind; [apply frames_lift|]. intros sv.
    apply frames_bind; [apply frames_lift|]. intros ss.
    apply frames_systems_loop. }
  rewrite <- (Hf file (mkGen t [] [])). unfold prepend. simpl.
  by rewrite app_nil_r.
Qed.

(** X8. What generation writes does not depend on what the tracking file
    already holds: generating onto a file gives the rows of that file
    followed by what generating onto an empty file gives, with the same
    templates, the same image builds and the same outcome. *)
Theorem generation_is_independent_of_the_file config file :
  let r := generate_all_benchmarks G im config file in
  let r0 := generate_all_benchmarks G im config [] in
  tracking r.1 = file ++ tracking r0.1
  ∧ templates r.1 = templates r0.1
  ∧ builds r.1 = builds r0.1
  ∧ r.2 = r0.2.
Proof. simpl. by rewrite generate_all_benchmarks_frame. Qed.

Lemma adds_ret {A} (a : A) : adds_pending (mret a).
Proof. intros st. exists []. simpl. by rewrite app_nil_r. Qed.

Lemma adds_lift {A} (r : exn + A) : adds_pending (lift r).
Proof. intros st. exists []. simpl. by rewrite app_nil_r. Qed.

Lemma adds_bind {A B} (m : M gen_state A) (k : A → M gen_state B) :
  adds_pending m → (∀ a, adds_pending (k a)) → adds_pending (m ≫= k).
Proof.
  intros Hm Hk st. unfold mbind, M_bind. destruct (Hm st) as (new1 & Ht1 & Hp1).
  destruct (m st) as [st1 [e|a]]; simpl in *; [by exists new1|].
  destruct (Hk a st1) as (new2 & Ht2 & Hp2).
  exists (new1 ++ new2). rewrite Ht2, Ht1, app_assoc. split; [done|].
  by apply Forall_app.
Qed.

Lemma generated_row_pending b s bc r : generated_row G b s bc r → status r = "PENDING".
Proof.
  by intros (? & ? & ? & ? & ? & _ & _ & _ & _ & ? & ? & ? & ? & ? & ? & ->).
Qed.

Lemma adds_generate_docker s sc b bc dc wc :
  adds_pending (generate_docker G im s sc b bc dc wc).
Proof.
  intros st. unfold generate_docker, mbind, M_bind, lift, modify.
  destruct (experiments_of G s sc b bc dc wc im) as [e|rows] eqn:Hrows; simpl.
  - exists []. by rewrite app_nil_r.
  - exists rows. split; [done|]. apply experiments_of_generated in Hrows.
    eapply Forall_impl; [exact Hrows|]. intros r. apply generated_row_pending.
Qed.

Lemma adds_build_docker dconf tag : adds_pending (build_docker G dconf tag).
Proof.
  apply adds_bind; [apply adds_lift|]. intros path.
  apply adds_bind; [apply adds_lift|]. intros dockerfile st.
  exists []. simpl. by rewrite app_nil_r.
Qed.

Lemma adds_params_loop config s sc b this l :
  adds_pending (params_loop G im config s sc b this l).
Proof.
  induction l as [|ps l IH]; [apply adds_ret|]. cbn [params_loop].
  apply adds_bind; [apply adds_lift|]. intros current.
  apply adds_bind; [apply adds_lift|]. intros dc.
  apply adds_bind; [apply adds_lift|]. intros wc.
  apply adds_bind; [apply adds_generate_docker|]. by intros _.
Qed.

Lemma adds_state_only (h : gen_state → gen_state) :
  (∀ st, tracking (h st) = tracking st) → adds_pending (modify h).
Proof. intros Hh st. exists []. simpl. by rewrite Hh, app_nil_r. Qed.

Lemma adds_benchmark_step config s sc b bc :
  adds_pending (benchmark_step G im config s sc b bc).
Proof.
  unfold benchmark_step.
  apply adds_bind; [apply adds_lift|]. intros name.
  apply adds_bind; [intros st; exists []; simpl; by rewrite app_nil_r|].
  intros templates_ref.
  apply adds_bind; [apply adds_lift|]. intros tmpl.
  apply adds_bind; [apply adds_lift|]. intros merged.
  apply adds_bind; [by apply adds_state_only|]. intros _.
  apply adds_bind; [apply adds_lift|]. intros active.
  destruct (truthy active); [|apply adds_ret].
  apply adds_bind; [apply adds_lift|]. intros docker.
  apply adds_bind; [apply adds_build_docker|]. intros _.
  apply adds_bind; [apply adds_lift|]. intros params.
  apply adds_bind; [apply adds_lift|]. intros kw.
  apply adds_bind; [apply adds_lift|]. intros bps.
  apply adds_params_loop.
Qed.

Lemma adds_benchmarks_loop config s sc l :
  adds_pending (benchmarks_loop G im config s sc l).
Proof.
  induction l as [|[b bc] l IH]; [apply adds_ret|]. cbn [benchmarks_loop].
  apply adds_bind; [apply adds_benchmark_step|]. by intros _.
Qed.

Lemma adds_systems_loop config l : adds_pending (systems_loop G im config l).
Proof.
  induction l as [|[s sc] l IH]; [apply adds_ret|]. cbn [systems_loop].
  apply adds_bind; [apply adds_lift|]. intros active.
  apply adds_bind; [|by intros _].
  destruct (negb (truthy active)); [apply adds_ret|].
  apply adds_bind; [apply adds_lift|]. intros bv.
  apply adds_bind; [apply adds_lift|]. intros bs.
  apply adds_benchmarks_loop.
Qed.

(** X9. Whether it completes or raises, generation leaves the rows the
    tracking file held as they were and in place, and every row it adds
    after them is PENDING. *)
Theorem generation_only_appends_pending_rows config file :
  ∃ new, tracking (generate_all_benchmarks G im config file).1 = file ++ new
         ∧ Forall (λ r, status r = "PENDING") new.
Proof.
  unfold generate_all_benchmarks.
  destruct (getitem config "benchmarks-template") as [e|t].
  { exists []. simpl. by rewrite app_nil_r. }
  assert (Ha : adds_pending (systems_v ← lift (getitem config "systems");
                             systems ← lift (items systems_v);
                             systems_loop G im config systems)).
  { apply adds_bind; [apply adds_lift|]. intros sv.
    apply adds_bind; [apply adds_lift|]. intros ss.
    apply adds_systems_loop. }
  apply (Ha (mkGen t file [])).
Qed.

End GenerationInvariants.

(** ** The devices text, written by generation and read by the dispatcher *)

Lemma string_app_cons c (s t : string) : String c s +:+ t = String c (s +:+ t).
Proof. reflexivity. Qed.

Lemma split_from_lacks sep (ds : string) : ∀ cur rest,
  lacks sep ds →
  Str.split_from sep cur (ds +:+ rest) = Str.split_from sep (cur +:+ ds) rest.
Proof.
  induction ds as [|c ds IH]; intros cur rest Hl.
  - by rewrite string_app_nil_r.
  - destruct Hl as [Hc Hl]. rewrite string_app_cons. cbn [Str.split_from].
    destruct (Ascii.eqb_spec c sep) as [->|_]; [done|].
    rewrite IH by done. f_equal.
    by rewrite string_app_assoc, string_app_cons.
Qed.

Lemma split_join sep (l : list string) :
  l ≠ [] → Forall (lacks sep) l →
  Str.split sep (Str.join (String sep EmptyString) l) = l.
Proof.
  intros Hne Hall. unfold Str.split.
  induction Hall as [|x l Hx Hl IH]; [done|].
  destruct l as [|y l].
  - simpl. rewrite <- (string_app_nil_r x) at 1.
    by rewrite split_from_lacks.
  - change (Str.join (String sep EmptyString) (x :: y :: l))
      with (x +:+ String sep EmptyString +:+ Str.join (String sep EmptyString) (y :: l)).
    rewrite split_from_lacks by done. rewrite string_app_cons.
    cbn [Str.split_from]. rewrite Ascii.eqb_refl.
    change (EmptyString +:+ x) with x. f_equal. by apply IH.
Qed.

Lemma digit_val_digit m : (m < 10)%nat → Str.digit_val (Str.digit m) = Some (Z.of_nat m).
Proof.
  intros Hm. do 10 (destruct m as [|m]; [reflexivity|]). lia.
Qed.

Lemma digit_not_comma m : (m < 10)%nat → Str.digit m ≠ ","%char.
Proof.
  intros Hm. do 10 (destruct m as [|m]; [discriminate|]). lia.
Qed.

Lemma lacks_app sep (s t : string) : lacks sep s → lacks sep t → lacks sep (s +:+ t).
Proof.
  intros Hs Ht. induction s as [|c s IH]; [done|].
  destruct Hs as [Hc Hs]. rewrite string_app_cons. split; [done|by apply IH].
Qed.

Lemma of_nat_fuel_spec fuel : ∀ n acc,
  (n < fuel)%nat →
  ∃ ds (k : nat),
    Str.of_nat_fuel fuel n acc = ds +:+ acc
    ∧ ds ≠ EmptyString
    ∧ lacks "," ds
    ∧ ∀ a rest, Str.decimal_from a (ds +:+ rest)
                = Str.decimal_from (a * 10 ^ Z.of_nat k + Z.of_nat n) rest.
Proof.
  induction fuel as [|fuel IH]; intros n acc Hn; [lia|].
  cbn [Str.of_nat_fuel].
  assert (Hmod : (n mod 10 < 10)%nat) by (apply Nat.mod_upper_bound; lia).
  pose proof (Nat.div_mod_eq n 10) as Hdm.
  destruct (Nat.eqb_spec (n / 10) 0) as [Hz|Hz].
  - exists (String (Str.digit (n mod 10)) EmptyString), 1%nat.
    split; [done|]. split; [done|]. split; [split; [by apply digit_not_comma|done]|].
    intros a rest. rewrite string_app_cons. cbn [Str.decimal_from].
    rewrite digit_val_digit by done. change (EmptyString +:+ rest) with rest.
    f_equal. change (Z.of_nat 1) with 1%Z. rewrite Z.pow_1_r. lia.
  - destruct (IH (n / 10)%nat (String (Str.digit (n mod 10)) acc))
      as (ds & k & Heq & Hne & Hl & Hdec).
    { assert (n / 10 < n)%nat by (apply Nat.div_lt; lia). lia. }
    exists (ds +:+ String (Str.digit (n mod 10)) EmptyString), (S k).
    split; [by rewrite Heq, string_app_assoc|]. split; [by destruct ds|].
    split; [apply lacks_app; [done|split; [by apply digit_not_comma|done]]|].
    intros a rest. rewrite string_app_assoc, Hdec, string_app_cons.
    cbn [Str.decimal_from]. rewrite digit_val_digit by done.
    change (EmptyString +:+ rest) with rest. f_equal.
    rewrite Nat2Z.inj_succ, Z.pow_succ_r by lia. lia.
Qed.

Lemma of_nat_spec n :
  Str.of_nat n ≠ EmptyString ∧ lacks "," (Str.of_nat n)
  ∧ Str.decimal (Str.of_nat n) = Some (Z.of_nat n).
Proof.
  unfold Str.of_nat.
  destruct (of_nat_fuel_spec (S n) n EmptyString) as (ds & k & -> & Hne & Hl & Hdec);
    [lia|].
  rewrite string_app_nil_r. split; [done|]. split; [done|].
  unfold Str.decimal. destruct ds as [|c ds]; [done|].
  rewrite <- (string_app_nil_r (String c ds)), Hdec. simpl. f_equal; lia.
Qed.

Lemma py_str_nat G n : py_str G (YInt (Z.of_nat n)) = Str.of_nat n.
Proof.
  simpl. unfold Str.of_Z.
  destruct (Z.ltb_spec (Z.of_nat n) 0) as [H|_]; [lia|]. by rewrite Nat2Z.id.
Qed.

Lemma devices_text_nat G (ids : list nat) :
  devices_text G (YInt ∘ Z.of_nat <$> ids) = Str.join "," (Str.of_nat <$> ids).
Proof.
  unfold devices_text. f_equal. rewrite <- list_fmap_compose.
  apply list_fmap_ext. intros _ n _. apply py_str_nat.
Qed.

Lemma devices_text_split G (ids : list nat) :
  ids ≠ [] →
  Str.split "," (devices_text G (YInt ∘ Z.of_nat <$> ids)) = Str.of_nat <$> ids.
Proof.
  intros Hne. rewrite devices_text_nat. apply split_join.
  - by destruct ids.
  - apply Forall_fmap, Forall_forall. intros n _. apply of_nat_spec.
Qed.

(** X10. The devices text generation writes for a non-empty list of device
    ids, all natural numbers, is read back by the dispatcher as these ids:
    split at the commas it gives their decimal renderings, one piece per
    device, and each piece reads as the id it renders. *)
Theorem devices_text_round_trip G (ids : list nat) :
  ids ≠ [] →
  let pieces := Str.split "," (devices_text G (YInt ∘ Z.of_nat <$> ids)) in
  pieces = Str.of_nat <$> ids
  ∧ mapM Str.decimal pieces = Some (Z.of_nat <$> ids).
Proof.
  intros Hne pieces. unfold pieces. rewrite devices_text_split by done.
  split; [done|]. apply mapM_Some. apply Forall2_fmap.
  apply Forall_Forall2_diag, Forall_forall. intros n _. apply of_nat_spec.
Qed.

(** ** The rows of one call of [generate_docker] *)

Lemma experiment_fields G im s b bc wc NV NB mounts capability r :
  experiment G im s b bc wc NV NB mounts capability = inr (Some r) →
  benchmark_name r = b ∧ system_name r = s ∧ devices r = NV
  ∧ docker_name r = b +:+ "-" +:+ s +:+ "-" +:+ capability.
Proof.
  intros H. unfold experiment in H. inv_binds H.
  destruct b1; simpl in H; [|discriminate H]. inv_binds H.
  by inversion H; subst r.
Qed.

Lemma capabilities_loop_shape G im s b bc wc NV NB mounts caps : ∀ acc rows,
  capabilities_loop G im s b bc wc NV NB mounts caps acc = inr rows →
  ∃ new,
    rows = acc ++ new
    ∧ Forall (λ r, benchmark_name r = b ∧ system_name r = s ∧ devices r = NV) new
    ∧ docker_name <$> new
      `sublist_of` ((λ kv, b +:+ "-" +:+ s +:+ "-" +:+ kv.1)
                      <$> filter (λ kv, truthy kv.2 = true) caps).
Proof.
  induction caps as [|[capability is_active] caps IH]; intros acc rows H; simpl in H.
  - exists []. inversion H; subst. rewrite app_nil_r. by repeat split.
  - destruct (truthy is_active) eqn:Ht.
    + rewrite filter_cons_True by done.
      unfold mbind, exn_bind in H.
      destruct (experiment G im s b bc wc NV NB mounts capability) as [e|[r|]] eqn:Hrow;
        [discriminate| |].
      * destruct (IH _ _ H) as (new & -> & Hf & Hs).
        destruct (experiment_fields _ _ _ _ _ _ _ _ _ _ _ Hrow) as (Hb & Hsn & Hd & Hn).
        exists (r :: new). rewrite <- app_assoc. split; [done|].
        split; [by constructor|]. simpl. rewrite Hn. by apply sublist_skip.
      * destruct (IH _ _ H) as (new & -> & Hf & Hs).
        exists new. split; [done|]. split; [done|]. by apply sublist_cons.
    + rewrite filter_cons_False by (simpl; rewrite Ht; discriminate).
      by apply IH.
Qed.

Lemma experiments_of_shape G s sc b bc dc wc im rows :
  experiments_of G s sc b bc dc wc im = inr rows →
  ∃ ids caps,
    (v ← getitem sc "devices-ids"; py_iter v) = inr ids
    ∧ (v ← getitem sc "compute-capabilities"; items v) = inr caps
    ∧ Forall (λ r, benchmark_name r = b ∧ system_name r = s
                   ∧ devices r = devices_text G ids) rows
    ∧ docker_name <$> rows
      `sublist_of` ((λ kv, b +:+ "-" +:+ s +:+ "-" +:+ kv.1)
                      <$> filter (λ kv, truthy kv.2 = true) caps).
Proof.
  intros H. unfold experiments_of in H. inv_binds H.
  destruct (capabilities_loop_shape _ _ _ _ _ _ _ _ _ _ _ _ H) as (new & -> & Hf & Hs).
  exists l, l1. simpl. rewrite Heq7. by repeat split.
Qed.

(** X11. All the rows one call of [generate_docker] writes bear the name of
    the benchmark, the name of the system and one same devices text, the
    device ids of the system joined by commas; there is at most one row per
    enabled capability of the system, in the order of the capabilities, its
    docker_name being made of the two names and the capability. *)
Theorem rows_of_one_call G s sc b bc dc wc im rows :
  experiments_of G s sc b bc dc wc im = inr rows →
  ∃ ids caps,
    (v ← getitem sc "devices-ids"; py_iter v) = inr ids
    ∧ (v ← getitem sc "compute-capabilities"; items v) = inr caps
    ∧ Forall (λ r, benchmark_name r = b ∧ system_name r = s
                   ∧ devices r = devices_text G ids) rows
    ∧ docker_name <$> rows
      `sublist_of` ((λ kv, b +:+ "-" +:+ s +:+ "-" +:+ kv.1)
                      <$> filter (λ kv, truthy kv.2 = true) caps).
Proof. apply experiments_of_shape. Qed.

(** X12. When the devices text the dispatcher reads from a record is the
    decimal renderings of natural numbers, at least one, joined by commas,
    the process count of the record is the sum of the processes the occupancy
    gives these device ids, it raises KeyError at the first of them the
    occupancy lacks, and it is zero exactly when the occupancy gives zero
    processes to each of them, provided [int] reads the decimal rendering of
    a natural number as that number. *)
Theorem devices_text_process_count E d row (ids : list nat) :
  devices row = Str.join "," (Str.of_nat <$> ids) →
  ids ≠ [] →
  (∀ n, py_int E (Str.of_nat n) = Some (Z.of_nat n)) →
  (∀ counts, Forall2 (λ id c, d !! Z.of_nat id = Some c) ids counts →
     nb_processes E d row = inr (sum_list counts))
  ∧ (∀ pre id post counts,
       ids = pre ++ id :: post →
       Forall2 (λ id' c, d !! Z.of_nat id' = Some c) pre counts →
       d !! Z.of_nat id = None →
       nb_processes E d row = inl (KeyError (IntKey (Z.of_nat id))))
  ∧ (nb_processes E d row = inr O
     ↔ Forall (λ id, d !! Z.of_nat id = Some O) ids).
Proof.
  intros Hd Hne Hint.
  assert (Hsplit : Str.split "," (devices row) = Str.of_nat <$> ids).
  { rewrite Hd. apply split_join.
    - by destruct ids.
    - apply Forall_fmap, Forall_forall. intros n _. apply of_nat_spec. }
  assert (Hcounts : ∀ l counts,
            Forall2 (λ id c, d !! Z.of_nat id = Some c) l counts →
            Forall2 (device_count E d) (Str.of_nat <$> l) counts).
  { intros l counts Hall. apply Forall2_fmap_l.
    eapply Forall2_impl; [exact Hall|]. intros n c Hc.
    exists (Z.of_nat n). by split; [apply Hint|]. }
  unfold nb_processes. rewrite Hsplit. split; [|split].
  - intros counts Hall.
    rewrite <- (app_nil_r (Str.of_nat <$> ids)).
    by rewrite (sum_processes_app _ _ _ _ (Hcounts _ _ Hall)).
  - intros pre id post counts -> Hpre Hnone.
    rewrite fmap_app, fmap_cons.
    rewrite (sum_processes_app _ _ _ _ (Hcounts _ _ Hpre)). simpl.
    by rewrite Hint, Hnone.
  - rewrite sum_processes_zero, Forall_fmap. split.
    + intros [_ Hall]. eapply Forall_impl; [exact Hall|]. intros n (k & Hk & Hz).
      simpl in Hk. rewrite Hint in Hk. by inversion Hk; subst.
    + intros Hall. split; [done|]. eapply Forall_impl; [exact Hall|]. intros n Hz.
      exists (Z.of_nat n). by split; [apply Hint|].
Qed.

(** ** The loop over the parameter assignments *)

Lemma params_loop_rows G im config s sc b kw dc wc :
  getitem config "data" = inr dc →
  getitem config "wandb" = inr wc →
  ∀ bps st st' res,
    params_loop G im config s sc b (YMap kw) bps st = (st', res) →
    ∃ k rowss,
      Forall2 (λ ps rows,
                 experiments_of G s sc b (with_params kw ps) dc wc im = inr rows)
              (take k bps) rowss
      ∧ tracking st' = tracking st ++ concat rowss
      ∧ templates st' = templates st ∧ builds st' = builds st
      ∧ match res with
        | inr _ => k = length bps
        | inl e => ∃ ps, bps !! k = Some ps
                         ∧ experiments_of G s sc b (with_params kw ps) dc wc im = inl e
        end.
Proof.
  intros Hdc Hwc. induction bps as [|ps bps IH]; intros st st' res Hrun.
  { inversion Hrun; subst. exists O, []. simpl. rewrite app_nil_r.
    by repeat split. }
  cbn [params_loop] in Hrun. unfold mbind, M_bind, lift in Hrun. simpl in Hrun.
  rewrite Hdc, Hwc in Hrun. unfold generate_docker, mbind, M_bind, lift, modify in Hrun.
  fold (with_params kw ps) in Hrun.
  destruct (experiments_of G s sc b (with_params kw ps) dc wc im) as [e|rows] eqn:Hrows.
  - inversion Hrun; subst. exists O, []. simpl. rewrite app_nil_r.
    repeat split; try done. by exists ps.
  - destruct (IH _ _ _ Hrun) as (k & rowss & HF & Ht & Htm & Hb & Hres).
    exists (S k), (rows :: rowss). simpl in *.
    split; [by constructor|]. split; [by rewrite Ht, <- app_assoc|].
    split; [done|]. split; [done|].
    destruct res as [e|[]]; [done|by rewrite Hres].
Qed.

(** X14. The loop over the parameter assignments of a benchmark writes, after
    the rows the tracking file held, the rows of [generate_docker] for the
    first assignment, then those for the second, and so on, each being run on
    the merged configuration in which the parameters are that assignment.  If
    the call for an assignment raises, the rows of the assignments before it
    have been written and stay. *)
Theorem params_loop_concatenates G im config s sc b kw dc wc bps st st' res :
  getitem config "data" = inr dc →
  getitem config "wandb" = inr wc →
  params_loop G im config s sc b (YMap kw) bps st = (st', res) →
  ∃ k rowss,
    Forall2 (λ ps rows,
               experiments_of G s sc b (with_params kw ps) dc wc im = inr rows)
            (take k bps) rowss
    ∧ tracking st' = tracking st ++ concat rowss
    ∧ templates st' = templates st ∧ builds st' = builds st
    ∧ match res with
      | inr _ => k = length bps
      | inl e => ∃ ps, bps !! k = Some ps
                       ∧ experiments_of G s sc b (with_params kw ps) dc wc im = inl e
      end.
Proof. intros Hdc Hwc. by apply params_loop_rows. Qed.

(** ** Image builds and inactive systems *)

Lemma builds_ret {A} (a : A) : keeps_builds (mret a).
Proof. by intros st. Qed.

Lemma builds_lift {A} (r : exn + A) : keeps_builds (lift r).
Proof. by intros st. Qed.

Lemma builds_bind {A B} (m : M gen_state A) (k : A → M gen_state B) :
  keeps_builds m → (∀ a, keeps_builds (k a)) → keeps_builds (m ≫= k).
Proof.
  intros Hm Hk st. unfold mbind, M_bind. specialize (Hm st).
  destruct (m st) as [st1 [e|a]]; simpl in *; [done|]. by rewrite Hk.
Qed.

Lemma builds_params_loop G im config s sc b this l :
  keeps_builds (params_loop G im config s sc b this l).
Proof.
  induction l as [|ps l IH]; [apply builds_ret|]. cbn [params_loop].
  apply builds_bind; [apply builds_lift|]. intros current.
  apply builds_bind; [apply builds_lift|]. intros dc.
  apply builds_bind; [apply builds_lift|]. intros wc.
  apply builds_bind; [|by intros _].
  apply builds_bind; [apply builds_lift|]. by intros rows st.
Qed.

(** X15. A benchmark whose merged configuration is not active builds no image
    and writes no row: only its override has been merged into the stored
    template.  A benchmark whose merged configuration is active has its image
    built exactly once, before the parameters are expanded, whatever the
    number of jobs that follow and even if the expansion or the generation of
    a job then raises. *)
Theorem one_build_per_active_benchmark G im config s sc b bc st name tmpl merged a :
  getitem bc "benchmark-template" = inr (YStr name) →
  getitem (templates st) name = inr tmpl →
  merge tmpl bc = inr merged →
  getitem merged "active" = inr a →
  (truthy a = false →
   benchmark_step G im config s sc b bc st
   = (set_templates (store_template (YStr name) merged (templates st)) st, inr tt))
  ∧ (truthy a = true →
     ∀ dconf path dockerfile,
       getitem merged "docker" = inr dconf →
       getitem dconf "path" = inr path →
       getitem dconf "dockerfile" = inr dockerfile →
       builds (benchmark_step G im config s sc b bc st).1
       = builds st ++ ["cd " +:+ py_str G path +:+ " && docker build -t " +:+ b
                       +:+ " -f " +:+ py_str G dockerfile +:+ " ."]).
Proof.
  intros Hname Htmpl Hmerge Hactive.
  assert (Hstep : benchmark_step G im config s sc b bc st =
            (if truthy a then
               docker ← lift (getitem merged "docker");
               build_docker G docker b;;
               params ← lift (getitem merged "params");
               kw ← lift (unpack params);
               benchmarks_params ← lift (product_dict kw);
               params_loop G im config s sc b merged benchmarks_params
             else mret tt)
              (set_templates (store_template (YStr name) merged (templates st)) st)).
  { unfold benchmark_step.
    unfold mbind at 1, M_bind at 1, lift at 1. rewrite Hname.
    unfold mbind at 1, M_bind at 1, gets at 1.
    unfold mbind at 1, M_bind at 1, lift at 1. simpl template_named. rewrite Htmpl.
    unfold mbind at 1, M_bind at 1, lift at 1. rewrite Hmerge.
    unfold mbind at 1, M_bind at 1, modify at 1.
    unfold mbind at 1, M_bind at 1, lift at 1. by rewrite Hactive. }
  rewrite Hstep. split; intros Ha; rewrite Ha; [done|].
  intros dconf path dockerfile Hd Hp Hf.
  unfold mbind at 1, M_bind at 1, lift at 1. rewrite Hd.
  unfold mbind at 1, M_bind at 1.
  unfold build_docker at 1, mbind at 1, M_bind at 1, lift at 1. rewrite Hp.
  unfold mbind at 1, M_bind at 1, lift at 1. rewrite Hf. unfold modify at 1.
  match goal with
  | |- builds (?m ?st').1 = _ => assert (Hk : keeps_builds m); [|by rewrite Hk]
  end.
  apply builds_bind; [apply builds_lift|]. intros params.
  apply builds_bind; [apply builds_lift|]. intros kw.
  apply builds_bind; [apply builds_lift|]. intros bps.
  apply builds_params_loop.
Qed.

Lemma systems_loop_inactive G im config systems st :
  Forall (λ kv, ∃ a, getitem kv.2 "active" = inr a ∧ truthy a = false) systems →
  systems_loop G im config systems st = (st, inr tt).
Proof.
  induction 1 as [|[s sc] systems (a & Ha & Ht) _ IH]; [done|].
  cbn [systems_loop]. simpl in Ha. unfold mbind, M_bind, lift. rewrite Ha, Ht. simpl.
  exact IH.
Qed.

(** X16. When no system of the configuration is active, generation does
    nothing: no template is merged, no image is built, no row is written, and
    the benchmarks of the configuration are not even looked up. *)
Theorem inactive_systems_generate_nothing G im config file t systems :
  getitem config "benchmarks-template" = inr t →
  getitem config "systems" = inr (YMap systems) →
  Forall (λ kv, ∃ a, getitem kv.2 "active" = inr a ∧ truthy a = false) systems →
  generate_all_benchmarks G im config file = (mkGen t file [], inr tt).
Proof.
  intros Ht Hs Hall. unfold generate_all_benchmarks. rewrite Ht.
  unfold mbind, M_bind, lift. rewrite Hs. simpl.
  by apply systems_loop_inactive.
Qed.

(** ** The order of the launches *)

Lemma row_step_launches E im idx row st st' res :
  row_step E im idx row st = (st', res) →
  ∃ evs, trace st' = trace st ++ evs
         ∧ (launch_indices evs = [] ∨ launch_indices evs = [idx]).
Proof.
  intros Hrow.
  destruct (row_step_cases row st) as [[Hs Hn]|[Hp|[Hp Hr]]].
  - rewrite (row_step_stale _ _ _ _ _ Hs Hn) in Hrow.
    exists []. split; [|by left].
    destruct (container st); inversion Hrow; subst; simpl; by rewrite app_nil_r.
  - rewrite (row_step_pending _ _ _ _ _ Hp) in Hrow.
    destruct (nb_processes E (occupancy E (queries st)) row) as [e|[|n]];
      inversion Hrow; subst; clear Hrow; simpl.
    + exists [EvQuery (queries st)]. split; [done|by left].
    + eexists [EvQuery (queries st); EvSystem idx _ _; EvSleep 15].
      split; [by rewrite <- !app_assoc|by right].
    + exists [EvQuery (queries st)]. split; [done|by left].
  - rewrite (row_step_other _ _ _ _ _ Hp Hr) in Hrow. inversion Hrow; subst.
    exists []. split; [by rewrite app_nil_r|by left].
Qed.

Lemma iterrows_launches E im rows : ∀ k st st' res,
  iterrows E im k rows st = (st', res) →
  ∃ evs, trace st' = trace st ++ evs
         ∧ StronglySorted lt (launch_indices evs)
         ∧ Forall (λ j, k ≤ j < k + length rows)%nat (launch_indices evs).
Proof.
  induction rows as [|row rows IH]; intros k st st' res Hrun.
  { inversion Hrun; subst. exists []. rewrite app_nil_r.
    split; [done|]. split; constructor. }
  rewrite iterrows_cons in Hrun.
  destruct (row_step E im k row st) as [st1 [e|[]]] eqn:Hrow;
    destruct (row_step_launches _ _ _ _ _ _ _ Hrow) as (ev1 & Ht1 & Hl1).
  - inversion Hrun; subst. exists ev1. split; [done|].
    destruct Hl1 as [->| ->]; (split; [repeat constructor|]);
      repeat constructor; simpl; lia.
  - destruct (IH _ _ _ _ Hrun) as (ev2 & Ht2 & Hs2 & Hr2).
    exists (ev1 ++ ev2). split; [by rewrite Ht2, Ht1, app_assoc|].
    unfold launch_indices in *. rewrite omap_app.
    assert (Hr2' : Forall (λ j, k ≤ j < k + length (row :: rows))%nat
                     (omap (λ e, match e with
                                 | EvSystem i _ _ => Some i
                                 | _ => None
                                 end) ev2)).
    { eapply Forall_impl; [exact Hr2|]. simpl. intros j Hj. lia. }
    destruct Hl1 as [->| ->]; simpl; [done|].
    split; constructor; try done; [|simpl; lia].
    eapply Forall_impl; [exact Hr2|]. simpl. intros j Hj. lia.
Qed.

(** X18. The launches of a pass are made in the order of the table: their
    row indices are strictly increasing, so that no record is launched twice
    in one pass, and they are indices of rows of the table. *)
Theorem launches_follow_the_table E im containers w :
  let launched := launch_indices (pass_events E im containers w) in
  StronglySorted lt launched
  ∧ Forall (λ j, j < length (tracking_file w))%nat launched.
Proof.
  simpl. unfold pass_events. rewrite run_cycle_trace, run_cycle_body_spec.
  destruct (iterrows E im 0 (live_marked containers (tracking_file w))
              (loop_entry E containers w)) as [st res] eqn:Hrun.
  destruct (iterrows_launches _ _ _ _ _ _ _ Hrun) as (evs & Ht & Hs & Hr).
  simpl in *. rewrite Ht, <- app_assoc, drop_app_length. simpl.
  split; [done|]. eapply Forall_impl; [exact Hr|]. simpl. intros j Hj.
  unfold live_marked in Hj. rewrite length_fmap in Hj. lia.
Qed.

(** ** Scenarios for the further properties *)

Lemma completed_pass_table_witness :
  let E := demo_env (two_gpus 0 0) in
  let w := mkWorld [job "0" "A" "RUNNING"; job "1" "B" "RUNNING"] 0 [] in
  let w' := mkWorld [job "0" "A" "RUNNING"; job "1" "B" "STOPPED"] 1 [EvQuery 0] in
  let marked := live_marked ["B"] (tracking_file w) in
  (Forall (λ r, ¬ stale ["B"] r) marked ∧ tracking_file w' = marked)
  ∨ (Exists (stale ["B"]) marked
     ∧ ∃ c, last ["B"] = Some c
            ∧ tracking_file w' = loc_set_status c "STOPPED" marked).
Proof.
  intros E w w'. apply (completed_pass_table E false ["B"] w w').
  vm_compute. reflexivity.
Defined.

Lemma runner_changes_only_named_records_witness :
  let E := demo_env (two_gpus 0 0) in
  let w := mkWorld [job "0" "A" "RUNNING"; job "1" "B" "RUNNING"] 0 [] in
  let r := job "0" "A" "RUNNING" in
  let ps := λ _ : nat, ["B"] in
  (∃ s, tracking_file (runner E false ps 3 0 w).1 !! 0%nat = Some (with_status s r)
        ∧ (s = status r ∨ s = "RUNNING" ∨ s = "STOPPED"))
  ∧ ((∀ c, (0 ≤ c < 0 + 3)%nat → docker_name r ∉ ps c) →
     tracking_file (runner E false ps 3 0 w).1 !! 0%nat = Some r).
Proof.
  intros E w r ps.
  exact (runner_changes_only_named_records E false ps 3 0 w 0 r eq_refl).
Defined.

Lemma launch_between_query_and_delay_witness :
  let E := demo_env (two_gpus 0 0) in
  let w := mkWorld [job "0" "A" "PENDING"] 0 [] in
  (∃ pre' n, [EvQuery 0; EvQuery 1] = pre' ++ [EvQuery n])
  ∧ (∃ post', [EvSleep 15] = EvSleep 15 :: post').
Proof.
  intros E w.
  apply (launch_between_query_and_delay E false [] w [EvQuery 0; EvQuery 1] 0
           "docker run -d --rm --name=A" 0 [EvSleep 15]).
  vm_compute. reflexivity.
Defined.

Lemma product_dict_empty_axis_witness :
  product_dict (kwargs_of [("batch-size", [YInt 32; YInt 64]); ("epochs", [])]) = inr [].
Proof.
  apply product_dict_empty_axis. simpl. right; left.
Defined.

Lemma product_dict_scalar_value_witness :
  product_dict [("batch-size", YList [YInt 32; YInt 64]); ("epochs", YInt 1)]
  = inl (TypeError "not iterable").
Proof.
  apply (product_dict_scalar_value _ "epochs" (YInt 1)); [right; left|exact I].
Defined.

Lemma devices_text_round_trip_witness :
  let pieces := Str.split "," (devices_text plain_env (YInt ∘ Z.of_nat <$> [0; 1; 12]%nat)) in
  pieces = Str.of_nat <$> [0; 1; 12]%nat
  ∧ mapM Str.decimal pieces = Some (Z.of_nat <$> [0; 1; 12]%nat).
Proof.
  apply (devices_text_round_trip plain_env [0; 1; 12]%nat). discriminate.
Defined.

Lemma rows_of_one_call_witness :
  let G := plain_env in
  let rows := [bert_row "bert-dgx-fp16-B32xE1xLR0.001"] in
  ∃ ids caps,
    (v ← getitem dgx "devices-ids"; py_iter v) = inr ids
    ∧ (v ← getitem dgx "compute-capabilities"; items v) = inr caps
    ∧ Forall (λ r, benchmark_name r = "bert" ∧ system_name r = "dgx"
                   ∧ devices r = devices_text G ids) rows
    ∧ docker_name <$> rows
      `sublist_of` ((λ kv, "bert" +:+ "-" +:+ "dgx" +:+ "-" +:+ kv.1)
                      <$> filter (λ kv, truthy kv.2 = true) caps).
Proof.
  intros G rows.
  apply (rows_of_one_call G "dgx" dgx "bert" (bert_resolved 32)
           (YMap [("imagenet", YStr "/mnt/imagenet")]) (YMap [("active", YBool false)])
           false rows).
  vm_compute. reflexivity.
Defined.

Lemma nb_processes_sum_or_raise_witness :
  let E := demo_env (two_gpus 2 1) in
  let d := occupancy E 0 in
  nb_processes E d (job "0,1" "A" "PENDING") = inr 3%nat
  ∧ nb_processes E d (job "0,x" "A" "PENDING") = inl (ValueError "x")
  ∧ nb_processes E d (job "0,7" "A" "PENDING") = inl (KeyError (IntKey 7)).
Proof.
  intros E d. split; [|split].
  - apply (proj1 (nb_processes_sum_or_raise E d (job "0,1" "A" "PENDING"))
             [2%nat; 1%nat]).
    repeat constructor; [by exists 0|by exists 1].
  - apply (proj1 (proj2 (nb_processes_sum_or_raise E d (job "0,x" "A" "PENDING")))
             ["0"] "x" [] [2%nat] eq_refl).
    + repeat constructor. by exists 0.
    + reflexivity.
  - apply (proj1 (proj2 (nb_processes_sum_or_raise E d (job "0,7" "A" "PENDING")))
             ["0"] "7" [] [2%nat] eq_refl).
    + repeat constructor. by exists 0.
    + reflexivity.
    + reflexivity.
Defined.

Lemma devices_text_process_count_witness :
  let E := demo_env (two_gpus 2 1) in
  let d := occupancy E 0 in
  nb_processes E d (job "0,1" "A" "PENDING") = inr 3%nat
  ∧ nb_processes E d (job "0,7" "A" "PENDING") = inl (KeyError (IntKey 7)).
Proof.
  intros E d.
  assert (Hint : ∀ n, py_int E (Str.of_nat n) = Some (Z.of_nat n)).
  { intros n. apply of_nat_spec. }
  split.
  - apply (proj1 (devices_text_process_count E d (job "0,1" "A" "PENDING")
                    [0%nat; 1%nat] eq_refl ltac:(discriminate) Hint)
             [2%nat; 1%nat]).
    by repeat constructor.
  - apply (proj1 (proj2 (devices_text_process_count E d (job "0,7" "A" "PENDING")
                           [0%nat; 7%nat] eq_refl ltac:(discriminate) Hint))
             [0%nat] 7%nat [] [2%nat] eq_refl).
    + by repeat constructor.
    + reflexivity.
Defined.

Lemma params_loop_concatenates_witness :
  let G := plain_env in
  let config := scenario axes_A_lr one_benchmark in
  let kw := [("active", YBool true); ("docker", docker_section);
             ("params", YMap axes_A_lr); ("benchmark-template", YStr "base")] in
  let dc := YMap [("imagenet", YStr "/mnt/imagenet")] in
  let wc := YMap [("active", YBool false)] in
  let bps := [[("batch-size", YInt 32); ("epochs", YInt 1);
               ("learning-rate", YFloat "0.001")];
              [("batch-size", YInt 64); ("epochs", YInt 1);
               ("learning-rate", YFloat "0.001")]] in
  let st := mkGen (YMap []) [] [] in
  let st' := mkGen (YMap []) [bert_row "bert-dgx-fp16-B32xE1xLR0.001";
                              bert_row "bert-dgx-fp16-B64xE1xLR0.001"] [] in
  ∃ k rowss,
    Forall2 (λ ps rows,
               experiments_of G "dgx" dgx "bert" (with_params kw ps) dc wc false
               = inr rows)
            (take k bps) rowss
    ∧ tracking st' = tracking st ++ concat rowss
    ∧ templates st' = templates st ∧ builds st' = builds st
    ∧ k = length bps.
Proof.
  intros G config kw dc wc bps st st'.
  apply (params_loop_concatenates G false config "dgx" dgx "bert" kw dc wc bps st st'
           (inr tt)).
  - reflexivity.
  - reflexivity.
  - vm_compute. reflexivity.
Defined.

Lemma one_build_per_active_benchmark_witness :
  let G := plain_env in
  let config := scenario axes_A_lr one_benchmark in
  let override := YMap [("benchmark-template", YStr "base"); ("active", YBool true)] in
  let stored := YMap [("active", YBool false); ("docker", docker_section);
                      ("params", YMap axes_A_lr)] in
  let st := mkGen (YMap [("base", stored)]) [] [] in
  builds (benchmark_step G false config "dgx" dgx "bert" override st).1
  = ["cd bert && docker build -t bert -f Dockerfile ."].
Proof.
  intros G config override stored st.
  exact (proj2 (one_build_per_active_benchmark G false config "dgx" dgx "bert"
                  override st "base" stored _ (YBool true)
                  eq_refl eq_refl eq_refl eq_refl)
           eq_refl docker_section (YStr "bert") (YStr "Dockerfile")
           eq_refl eq_refl eq_refl).
Defined.

Lemma inactive_systems_generate_nothing_witness :
  generate_all_benchmarks plain_env false idle_config [job "0" "A" "STOPPED"]
  = (mkGen (YMap []) [job "0" "A" "STOPPED"] [], inr tt).
Proof.
  apply (inactive_systems_generate_nothing plain_env false idle_config _ (YMap [])
           [("dgx", YMap [("active", YBool false)])]).
  - reflexivity.
  - reflexivity.
  - apply Forall_singleton. by exists (YBool false).
Defined.
